(** * dns-performance-tester: a model of [main.go]

  The program is a command-line DNS load generator.  [main] parses its
  flags, starts a pool of [worker] goroutines that call
  [performDNSQuery], a producer goroutine that hands out jobs, an
  aggregator goroutine that sums up the results, and finally prints a
  report.

  The development follows the source file top-down:
  - [Go]: the few runtime primitives the program relies on (int64
    arithmetic, float64 conversion, [strings.Contains], panics);
  - [Dnsmessage]: the part of [golang.org/x/net/dns/dnsmessage] the
    program calls;
  - [Executor]: [performDNSQuery];
  - [Startup]: flag handling at the top of [main];
  - [Report]: the statistics at the bottom of [main];
  - [Pool]: the goroutines of [main] and [worker] as a labelled
    transition system over channels, the wait group and the atomics. *)

From Stdlib Require Import ZArith Lia Strings.Ascii.
From Stdlib Require Floats.PrimFloat Numbers.Cyclic.Int63.Uint63.
From stdpp Require Import base tactics list strings gmap.

Open Scope Z_scope.

(** ** Go runtime primitives *)

Module Go.

(** A call either returns or panics; a panic that nobody recovers kills
    the process. *)
Inductive Outcome (A : Type) : Type :=
| Returned (a : A)
| Panic (msg : string).
Arguments Returned {A} a.
Arguments Panic {A} msg.

#[export] Instance outcome_bind : MBind Outcome := λ A B k m,
  match m with
  | Returned a => k a
  | Panic msg => Panic msg
  end.

Definition minInt64 : Z := - 2 ^ 63.
Definition maxInt64 : Z := 2 ^ 63 - 1.

Definition in_int64 (z : Z) : Prop := minInt64 ≤ z ≤ maxInt64.

(** Two's complement wrap-around of [int64] arithmetic. *)
Definition wrap64 (z : Z) : Z := (z + 2 ^ 63) `mod` 2 ^ 64 - 2 ^ 63.

Definition add64 (a b : Z) : Z := wrap64 (a + b).
Definition sub64 (a b : Z) : Z := wrap64 (a - b).

(** [a / b] on [int64]: truncated division, a run-time panic when the
    divisor is zero. *)
Definition div64 (a b : Z) : Outcome Z :=
  if b =? 0 then Panic "runtime error: integer divide by zero"
  else Returned (wrap64 (a ÷ b)).

(** [float64(x)] for an [int64] [x]. *)
Definition float64 (z : Z) : PrimFloat.float :=
  if z =? minInt64 then
    PrimFloat.opp (PrimFloat.mul (PrimFloat.of_uint63 (Uint63.of_Z (2 ^ 62)))
                                 (PrimFloat.of_uint63 (Uint63.of_Z 2)))
  else if z <? 0 then PrimFloat.opp (PrimFloat.of_uint63 (Uint63.of_Z (- z)))
  else PrimFloat.of_uint63 (Uint63.of_Z z).

(** [time.Second], in nanoseconds. *)
Definition Second : Z := 1000000000.

(** [time.Duration.Seconds]:
    [sec := d / Second; nsec := d % Second;
     return float64(sec) + float64(nsec)/1e9]. *)
Definition Seconds (d : Z) : PrimFloat.float :=
  PrimFloat.add (float64 (d ÷ Second))
                (PrimFloat.div (float64 (Z.rem d Second)) (float64 Second)).

(** [strings.Contains(s, substr)]: [substr] occurs somewhere in [s]. *)
Fixpoint Contains (s substr : string) : bool :=
  String.prefix substr s ||
  match s with
  | EmptyString => false
  | String _ rest => Contains rest substr
  end.

End Go.

Import Go.

(** ** The flags and the configuration checks of [main] *)

Module Startup.

(** The values the [flag] package hands to [main] after [flag.Parse]. *)
Record Flags := {
  flag_domain : string;
  flag_type : string;
  flag_queries : Z;
  flag_concurrency : Z;
  flag_dns : string;
  flag_log : string;
}.

(** Defaults declared with [flag.String] / [flag.Int]. *)
Definition defaults (domain : string) : Flags :=
  {| flag_domain := domain; flag_type := "A"; flag_queries := -1;
     flag_concurrency := 10; flag_dns := "8.8.8.8"; flag_log := "" |}.

(** What the worker pool is started with. *)
Record Config := {
  domain : string;
  recordType : Z;
  queries : Z;
  concurrency : Z;
  dnsServer : string;
}.

(** The literal of [recordTypeMap], in source order. *)
Definition recordTypeTable : list (string * Z) :=
  [("A", 1); ("NS", 2); ("CNAME", 5); ("SOA", 6);
   ("PTR", 12); ("MX", 15); ("TXT", 16); ("AAAA", 28)].

Definition recordTypeMap : gmap string Z := list_to_map recordTypeTable.

(** Lines 107-109: when [strings.Contains] finds no colon in the [dns]
    flag, the flag is replaced by itself followed by the default port. *)
Definition normalizeServer (dns : string) : string :=
  if negb (Contains dns ":") then dns +:+ ":53" else dns.

Inductive Start :=
| Exit (code : Z)          (* [os.Exit] / [log.Fatalf] before the pool exists *)
| Run (cfg : Config).

(** Lines 102-135.  [open_ok] says whether [os.OpenFile] on the log file
    succeeds; it is only consulted when a log file was asked for. *)
Definition startup (fl : Flags) (open_ok : bool) : Start :=
  if String.eqb (flag_domain fl) "" then Exit 1
  else
    let dns := normalizeServer (flag_dns fl) in
    if negb (String.eqb (flag_log fl) "") && negb open_ok then Exit 1
    else
      match recordTypeMap !! flag_type fl with
      | None => Exit 1
      | Some rt =>
          Run {| domain := flag_domain fl; recordType := rt;
                 queries := flag_queries fl;
                 concurrency := flag_concurrency fl;
                 dnsServer := dns |}
      end.

(** *** The documented form of the [dns] flag

    The flag is documented as "IP or IP:port".  [spec_port_present] reads
    that literally, the way the resolver splits an address: the text after
    the last colon is a non-empty decimal port, and the host before that
    colon either has no colon of its own (an IPv4 address or a name) or is
    an IPv6 address in square brackets. *)

Fixpoint split_last_colon (s : string) : option (string * string) :=
  match s with
  | EmptyString => None
  | String c rest =>
      match split_last_colon rest with
      | Some (host, port) => Some (String c host, port)
      | None => if Ascii.eqb c ":"%char then Some (EmptyString, rest) else None
      end
  end.

Definition is_digit (c : Ascii.ascii) : bool :=
  let n := Ascii.nat_of_ascii c in (48 <=? n)%nat && (n <=? 57)%nat.

Fixpoint all_digits (s : string) : bool :=
  match s with
  | EmptyString => true
  | String c rest => is_digit c && all_digits rest
  end.

Fixpoint ends_with_bracket (s : string) : bool :=
  match s with
  | EmptyString => false
  | String c EmptyString => Ascii.eqb c "]"%char
  | String _ rest => ends_with_bracket rest
  end.

Definition bracketed (host : string) : bool :=
  match host with
  | String c rest => Ascii.eqb c "["%char && ends_with_bracket rest
  | EmptyString => false
  end.

Definition spec_port_present (dns : string) : bool :=
  match split_last_colon dns with
  | None => false
  | Some (host, port) =>
      negb (String.eqb port EmptyString) && all_digits port &&
      (negb (Contains host ":") || bracketed host)
  end.

(** What the documentation asks of the flag, read with
    [spec_port_present]: keep an address that has a port, give the default
    port to one that has none. *)
Definition spec_normalizeServer (dns : string) : string :=
  if spec_port_present dns then dns else dns +:+ ":53".

End Startup.


(** ** The calls into [golang.org/x/net/dns/dnsmessage] *)

Module Dnsmessage.

(** [Name.Data] is a [[255]byte] array. *)
Definition nameLen : nat := 255.

Definition ClassINET : Z := 1.

Record Question := {
  Name : string;
  Type_ : Z;
  Class : Z;
}.

Record Message := {
  ID : Z;
  RecursionDesired : bool;
  Questions : list Question;
}.

Definition errCalcLen : string := "insufficient data for calculated length type".

(** [NewName], after the library's source: the only check is that the text
    fits into [Name.Data]; otherwise the error is [errCalcLen]. *)
Definition NewName (name : string) : string + string :=
  if decide (String.length name ≤ nameLen)%nat then inl name else inr errCalcLen.

(** [MustNewName] panics where [NewName] returns an error. *)
Definition MustNewName (name : string) : Outcome string :=
  match NewName name with
  | inl n => Returned n
  | inr err => Panic ("creating name: " +:+ err)
  end.

(** [Message.Pack] and [Message.Unpack] are the library's wire codec.  The
    program only looks at whether they return an error, so the codec is a
    parameter of the model: [Pack m = None] and [Unpack b = false] stand for
    a non-nil [err]. *)
Record Codec := {
  Pack : Message → option (list Byte.byte);
  Unpack : list Byte.byte → bool;
}.

End Dnsmessage.

(** ** [performDNSQuery] *)

Module Executor.
Import Dnsmessage.

Record QueryResult := {
  Duration : Z;      (* [time.Duration]: int64 nanoseconds *)
  Success : bool;
}.

(** Everything the outside world decides during one call: the network, the
    random source and the clock. *)
Record Attempt := {
  dial_fails : bool;                      (* [net.Dial] returns an error *)
  rand_int63 : Z;                         (* the draw behind [rand.Intn] *)
  write_fails : bool;                     (* [conn.Write] returns an error *)
  datagram : option (list Byte.byte);     (* [conn.Read]: [None] is a timeout or
                                             another read error *)
  since_start : Z;                        (* [time.Since(start)] at the return *)
}.

(** What the call does to the outside world, in order. *)
Inductive Event :=
| EvDial (network address : string)
| EvWrite (packet : list Byte.byte)
| EvSetReadDeadline (seconds : Z)
| EvRead (size : nat)
| EvClose
| EvLog (msg : string).

(** The body of the function is a sequence of steps, each of which may leave
    through a [return] or through a panic. *)
Inductive Flow (A : Type) :=
| Next (a : A)
| Return (r : QueryResult)
| Abort (msg : string).
Arguments Next {A} a.
Arguments Return {A} r.
Arguments Abort {A} msg.

Definition Body (A : Type) : Type := list Event * Flow A.

Definition emit (e : Event) : Body unit := ([e], Next tt).
Definition pure {A} (a : A) : Body A := ([], Next a).
Definition leave {A} (r : QueryResult) : Body A := ([], Return r).
Definition lift {A} (o : Outcome A) : Body A :=
  match o with
  | Returned a => ([], Next a)
  | Panic msg => ([], Abort msg)
  end.

Definition then_ {A B} (m : Body A) (k : A → Body B) : Body B :=
  match m with
  | (es, Next a) => let '(es', f) := k a in (es ++ es', f)
  | (es, Return r) => (es, Return r)
  | (es, Abort msg) => (es, Abort msg)
  end.

#[export] Instance body_bind : MBind Body := λ A B k m, then_ m k.

(** [defer f()]: [f] runs when the function is left, whichever way. *)
Definition defer {A} (e : Event) (m : Body A) : Body A :=
  let '(es, f) := m in (es ++ [e], f).

Definition finish (m : Body QueryResult) : list Event * Outcome QueryResult :=
  match m with
  | (es, Next r) | (es, Return r) => (es, Returned r)
  | (es, Abort msg) => (es, Panic msg)
  end.

(** [rand.Intn(n)] for [n > 0]. *)
Definition Intn (w : Attempt) (n : Z) : Z := rand_int63 w `mod` n.

Definition uint16 (z : Z) : Z := z `mod` 2 ^ 16.

(** [resp := make([]byte, 512)] after [conn.Read(resp)]: the datagram, cut
    at 512 bytes, over a zeroed buffer. *)
Definition read_buffer (d : list Byte.byte) : list Byte.byte :=
  take 512 d ++ replicate (512 - length d) Byte.x00.

Definition failed (w : Attempt) : QueryResult :=
  {| Duration := since_start w; Success := false |}.

(** The question section built on lines 38-44. *)
Definition question (domain : string) (recordType : Z) : Outcome Question :=
  match MustNewName (domain +:+ ".") with
  | Returned n => Returned {| Name := n; Type_ := recordType; Class := ClassINET |}
  | Panic msg => Panic msg
  end.

Definition performDNSQuery (codec : Codec) (w : Attempt)
    (dnsServer domain : string) (recordType : Z)
  : list Event * Outcome QueryResult :=
  finish (
    _ ← emit (EvDial "udp" dnsServer);
    _ ← (if dial_fails w then
           _ ← emit (EvLog "Error connecting to DNS server"); leave (failed w)
         else pure tt);
    defer EvClose (
      let id := uint16 (Intn w 65535) in
      q ← lift (question domain recordType);
      let m := {| ID := id; RecursionDesired := true; Questions := [q] |} in
      packed ← match Pack codec m with
               | None => _ ← emit (EvLog "Error packing DNS message"); leave (failed w)
               | Some packed => pure packed
               end;
      _ ← emit (EvWrite packed);
      _ ← (if write_fails w then
             _ ← emit (EvLog "Error sending DNS query"); leave (failed w)
           else pure tt);
      _ ← emit (EvSetReadDeadline 5);
      _ ← emit (EvRead 512);
      resp ← match datagram w with
             | None => _ ← emit (EvLog "Error reading DNS response"); leave (failed w)
             | Some d => pure (read_buffer d)
             end;
      _ ← (if Unpack codec resp then pure tt
           else _ ← emit (EvLog "Error unpacking DNS response"); leave (failed w));
      pure {| Duration := since_start w; Success := true |})).

(** *** Views of one attempt *)

(** The message of lines 35-44. *)
Definition query_message (w : Attempt) (domain : string) (recordType : Z) : Message :=
  {| ID := uint16 (Intn w 65535); RecursionDesired := true;
     Questions := [{| Name := domain +:+ "."; Type_ := recordType; Class := ClassINET |}] |}.

(** Whether the round trip of one attempt goes through. *)
Definition round_trip (codec : Codec) (w : Attempt) (m : Message) : bool :=
  match Pack codec m, datagram w with
  | Some _, Some d => negb (write_fails w) && Unpack codec (read_buffer d)
  | _, _ => false
  end.

End Executor.

(** ** The statistics at the end of [main] *)

Module Report.

Record Stats := {
  totalQueries : Z;
  successful : Z;
  failedQueries : Z;
  totalTime : PrimFloat.float;
  avgDuration : Z;
  qps : PrimFloat.float;
  successRate : PrimFloat.float;
  failedRate : PrimFloat.float;
}.

(** Lines 216-226; the arguments are [totalDuration] and the three values
    read on lines 213-215. *)
Definition statistics (totalDuration finalQueryCount finalSuccessCount elapsed : Z)
  : Outcome Stats :=
  avg ← div64 totalDuration finalQueryCount;
  let qps := PrimFloat.div (float64 finalQueryCount) (Seconds elapsed) in
  let successRate :=
    PrimFloat.mul (PrimFloat.div (float64 finalSuccessCount) (float64 finalQueryCount))
                  (float64 100) in
  Returned {| totalQueries := finalQueryCount;
              successful := finalSuccessCount;
              failedQueries := sub64 finalQueryCount finalSuccessCount;
              totalTime := Seconds elapsed;
              avgDuration := avg;
              qps := qps;
              successRate := successRate;
              failedRate := PrimFloat.sub (float64 100) successRate |}.

End Report.

(** ** The goroutines of [main]

    Once the flags are checked, [main] starts [concurrency] copies of
    [worker], a goroutine that closes [results] after [wg.Wait()], the
    producer of jobs and the aggregator of results, and goes on to its final
    [select].  They share the context [ctx], the channels [jobs]
    (unbuffered), [results] (buffered, capacity [concurrency]), [sigChan]
    (capacity 1) and [done], the wait group and three counters.

    The model is a labelled transition system: a state holds the program
    point of every goroutine and the shared objects, a label is one atomic
    action of one goroutine (or of the operator pressing Ctrl-C), and
    [step] says whether the action is enabled and what it does.  The
    scheduler is any sequence of enabled labels.

    An action is one access to a shared object together with the local
    statements around it: the hand-over of a job is one action of the
    producer and a worker together ([jobs] is unbuffered); [return] in
    [worker] and its deferred [wg.Done()] are one action; so are the three
    reads of lines 213-215, and the receive and the two updates in the body
    of the aggregator's loop, whose variables [main] only reads after
    [done] is closed.  Printing is left out.

    The one allocation whose size the flags decide is the buffer of
    [results]: whether [make] grants it is a matter of the [Runtime].  The
    other allocations (the goroutines, the channels without a buffer) are
    taken to succeed. *)

Module Pool.
Import Startup Dnsmessage Executor.

(** Program points of [worker] (lines 77-91). *)
Inductive WorkerPC :=
| WSelect                    (* blocked in the [select] of line 80 *)
| WQuery                     (* line 87: a job was received *)
| WSend (r : QueryResult)    (* line 88: blocked in [results <- result] *)
| WReturned.                 (* returned; the deferred [wg.Done()] has run *)

(** Program points of the producer (lines 170-188). *)
Inductive ProducerPC :=
| PNotStarted  (* [main] has not reached line 170 *)
| PLoop        (* line 171: about to evaluate the loop condition *)
| PSelect      (* line 172: about to run the [select] *)
| PSend        (* line 176: blocked in [jobs <- 1] *)
| PCount       (* line 177: the job is handed over, [queryCount] not yet bumped *)
| PClose       (* line 187: about to [close(jobs)] *)
| PReturned.

(** Program points of the goroutine of lines 159-162. *)
Inductive CloserPC :=
| CNotStarted  (* [main] has not reached line 159 *)
| CWait        (* blocked in [wg.Wait()] *)
| CClose       (* about to [close(results)] *)
| CReturned.

(** Program points of the aggregator (lines 193-201). *)
Inductive AggregatorPC :=
| ANotStarted  (* [main] has not reached line 193 *)
| ARange       (* blocked in [range results] *)
| AReturned.   (* [done] is closed *)

(** Program points of [main] from line 153 on. *)
Inductive MainPC :=
| MWorkers (i : Z)                                      (* line 154, [i] workers started *)
| MCloser                                               (* line 159 *)
| MNotify                                               (* lines 164-168 *)
| MProducer                                             (* line 170 *)
| MAggregator                                           (* lines 190-193 *)
| MSelect                                               (* line 203 *)
| MDrain                                                (* line 211 *)
| MLoad                                                 (* lines 213-215 *)
| MStats (finalQueryCount finalSuccessCount elapsed : Z)   (* lines 216-226 *)
| MReturned (st : Report.Stats).                        (* the process has exited *)

(** Ways the process can die. *)
Inductive Fault :=
| MakeChanSize            (* [make(chan T, n)]: "makechan: size out of range" *)
| OutOfMemory             (* [make(chan T, n)]: the runtime gets no memory *)
| SendOnClosedChannel
| NegativeWaitGroup       (* [wg.Done()] below zero *)
| Uncaught (msg : string).   (* a panic raised by called code *)

(** What [make(chan QueryResult, n)] on line 151 depends on besides [n]:
    the platform and the machine.  The runtime's [makechan] panics with
    "makechan: size out of range" when [n] is negative or [n] elements do
    not fit the address space it manages (the size of the buffer overflows
    or exceeds [maxAlloc - hchanSize], both fixed by the platform and the
    version of the runtime); otherwise it allocates the buffer, and the
    process dies with "out of memory" when the machine does not have it.
    A channel without a buffer is within both limits. *)
Record Runtime := {
  chanRange : N;     (* the largest [n] that fits the address space *)
  chanMemory : N;    (* the largest [n] the machine has the memory for *)
}.

Definition makechan (rt : Runtime) (n : Z) : option Fault :=
  if (n <? 0) || (Z.of_N (chanRange rt) <? n) then Some MakeChanSize
  else if Z.of_N (chanMemory rt) <? n then Some OutOfMemory
  else None.

Record State := {
  producer : ProducerPC;
  workers : list WorkerPC;
  closer : CloserPC;
  aggregator : AggregatorPC;
  coordinator : MainPC;
  cancelled : bool;                (* [ctx.Done()] is closed *)
  sigChan : bool;                  (* an [os.Interrupt] is buffered *)
  jobsClosed : bool;
  results : list QueryResult;      (* the buffer of [results], oldest first *)
  resultsClosed : bool;
  doneClosed : bool;
  wg : Z;
  queryCount : Z;
  successCount : Z;
  totalDuration : Z;
  panicked : option Fault;
}.

Definition set_producer (p : ProducerPC) (s : State) : State :=
  {| producer := p; workers := workers s; closer := closer s;
     aggregator := aggregator s; coordinator := coordinator s;
     cancelled := cancelled s; sigChan := sigChan s; jobsClosed := jobsClosed s;
     results := results s; resultsClosed := resultsClosed s;
     doneClosed := doneClosed s; wg := wg s; queryCount := queryCount s;
     successCount := successCount s; totalDuration := totalDuration s;
     panicked := panicked s |}.

Definition set_workers (ws : list WorkerPC) (s : State) : State :=
  {| producer := producer s; workers := ws; closer := closer s;
     aggregator := aggregator s; coordinator := coordinator s;
     cancelled := cancelled s; sigChan := sigChan s; jobsClosed := jobsClosed s;
     results := results s; resultsClosed := resultsClosed s;
     doneClosed := doneClosed s; wg := wg s; queryCount := queryCount s;
     successCount := successCount s; totalDuration := totalDuration s;
     panicked := panicked s |}.

Definition set_closer (c : CloserPC) (s : State) : State :=
  {| producer := producer s; workers := workers s; closer := c;
     aggregator := aggregator s; coordinator := coordinator s;
     cancelled := cancelled s; sigChan := sigChan s; jobsClosed := jobsClosed s;
     results := results s; resultsClosed := resultsClosed s;
     doneClosed := doneClosed s; wg := wg s; queryCount := queryCount s;
     successCount := successCount s; totalDuration := totalDuration s;
     panicked := panicked s |}.

Definition set_aggregator (a : AggregatorPC) (s : State) : State :=
  {| producer := producer s; workers := workers s; closer := closer s;
     aggregator := a; coordinator := coordinator s;
     cancelled := cancelled s; sigChan := sigChan s; jobsClosed := jobsClosed s;
     results := results s; resultsClosed := resultsClosed s;
     doneClosed := doneClosed s; wg := wg s; queryCount := queryCount s;
     successCount := successCount s; totalDuration := totalDuration s;
     panicked := panicked s |}.

Definition set_coordinator (m : MainPC) (s : State) : State :=
  {| producer := producer s; workers := workers s; closer := closer s;
     aggregator := aggregator s; coordinator := m;
     cancelled := cancelled s; sigChan := sigChan s; jobsClosed := jobsClosed s;
     results := results s; resultsClosed := resultsClosed s;
     doneClosed := doneClosed s; wg := wg s; queryCount := queryCount s;
     successCount := successCount s; totalDuration := totalDuration s;
     panicked := panicked s |}.

Definition set_cancelled (b : bool) (s : State) : State :=
  {| producer := producer s; workers := workers s; closer := closer s;
     aggregator := aggregator s; coordinator := coordinator s;
     cancelled := b; sigChan := sigChan s; jobsClosed := jobsClosed s;
     results := results s; resultsClosed := resultsClosed s;
     doneClosed := doneClosed s; wg := wg s; queryCount := queryCount s;
     successCount := successCount s; totalDuration := totalDuration s;
     panicked := panicked s |}.

Definition set_sigChan (b : bool) (s : State) : State :=
  {| producer := producer s; workers := workers s; closer := closer s;
     aggregator := aggregator s; coordinator := coordinator s;
     cancelled := cancelled s; sigChan := b; jobsClosed := jobsClosed s;
     results := results s; resultsClosed := resultsClosed s;
     doneClosed := doneClosed s; wg := wg s; queryCount := queryCount s;
     successCount := successCount s; totalDuration := totalDuration s;
     panicked := panicked s |}.

Definition set_jobsClosed (b : bool) (s : State) : State :=
  {| producer := producer s; workers := workers s; closer := closer s;
     aggregator := aggregator s; coordinator := coordinator s;
     cancelled := cancelled s; sigChan := sigChan s; jobsClosed := b;
     results := results s; resultsClosed := resultsClosed s;
     doneClosed := doneClosed s; wg := wg s; queryCount := queryCount s;
     successCount := successCount s; totalDuration := totalDuration s;
     panicked := panicked s |}.

Definition set_results (rs : list QueryResult) (s : State) : State :=
  {| producer := producer s; workers := workers s; closer := closer s;
     aggregator := aggregator s; coordinator := coordinator s;
     cancelled := cancelled s; sigChan := sigChan s; jobsClosed := jobsClosed s;
     results := rs; resultsClosed := resultsClosed s;
     doneClosed := doneClosed s; wg := wg s; queryCount := queryCount s;
     successCount := successCount s; totalDuration := totalDuration s;
     panicked := panicked s |}.

Definition set_resultsClosed (b : bool) (s : State) : State :=
  {| producer := producer s; workers := workers s; closer := closer s;
     aggregator := aggregator s; coordinator := coordinator s;
     cancelled := cancelled s; sigChan := sigChan s; jobsClosed := jobsClosed s;
     results := results s; resultsClosed := b;
     doneClosed := doneClosed s; wg := wg s; queryCount := queryCount s;
     successCount := successCount s; totalDuration := totalDuration s;
     panicked := panicked s |}.

Definition set_doneClosed (b : bool) (s : State) : State :=
  {| producer := producer s; workers := workers s; closer := closer s;
     aggregator := aggregator s; coordinator := coordinator s;
     cancelled := cancelled s; sigChan := sigChan s; jobsClosed := jobsClosed s;
     results := results s; resultsClosed := resultsClosed s;
     doneClosed := b; wg := wg s; queryCount := queryCount s;
     successCount := successCount s; totalDuration := totalDuration s;
     panicked := panicked s |}.

Definition set_wg (n : Z) (s : State) : State :=
  {| producer := producer s; workers := workers s; closer := closer s;
     aggregator := aggregator s; coordinator := coordinator s;
     cancelled := cancelled s; sigChan := sigChan s; jobsClosed := jobsClosed s;
     results := results s; resultsClosed := resultsClosed s;
     doneClosed := doneClosed s; wg := n; queryCount := queryCount s;
     successCount := successCount s; totalDuration := totalDuration s;
     panicked := panicked s |}.

Definition set_queryCount (n : Z) (s : State) : State :=
  {| producer := producer s; workers := workers s; closer := closer s;
     aggregator := aggregator s; coordinator := coordinator s;
     cancelled := cancelled s; sigChan := sigChan s; jobsClosed := jobsClosed s;
     results := results s; resultsClosed := resultsClosed s;
     doneClosed := doneClosed s; wg := wg s; queryCount := n;
     successCount := successCount s; totalDuration := totalDuration s;
     panicked := panicked s |}.

Definition set_successCount (n : Z) (s : State) : State :=
  {| producer := producer s; workers := workers s; closer := closer s;
     aggregator := aggregator s; coordinator := coordinator s;
     cancelled := cancelled s; sigChan := sigChan s; jobsClosed := jobsClosed s;
     results := results s; resultsClosed := resultsClosed s;
     doneClosed := doneClosed s; wg := wg s; queryCount := queryCount s;
     successCount := n; totalDuration := totalDuration s;
     panicked := panicked s |}.

Definition set_totalDuration (n : Z) (s : State) : State :=
  {| producer := producer s; workers := workers s; closer := closer s;
     aggregator := aggregator s; coordinator := coordinator s;
     cancelled := cancelled s; sigChan := sigChan s; jobsClosed := jobsClosed s;
     results := results s; resultsClosed := resultsClosed s;
     doneClosed := doneClosed s; wg := wg s; queryCount := queryCount s;
     successCount := successCount s; totalDuration := n;
     panicked := panicked s |}.

Definition panic (f : Fault) (s : State) : State :=
  {| producer := producer s; workers := workers s; closer := closer s;
     aggregator := aggregator s; coordinator := coordinator s;
     cancelled := cancelled s; sigChan := sigChan s; jobsClosed := jobsClosed s;
     results := results s; resultsClosed := resultsClosed s;
     doneClosed := doneClosed s; wg := wg s; queryCount := queryCount s;
     successCount := successCount s; totalDuration := totalDuration s;
     panicked := Some f |}.

(** One atomic action. *)
Inductive Label :=
| Interrupt                           (* the operator sends SIGINT *)
| MainWorkerLoop                      (* lines 154-157, one turn of the loop *)
| MainSpawnCloser                     (* lines 159-162 *)
| MainNotify                          (* lines 164-168 *)
| MainSpawnProducer                   (* lines 170-188 *)
| MainSpawnAggregator                 (* lines 190-201 *)
| ProducerLoop                        (* line 171 *)
| ProducerSelect                      (* lines 172-175 *)
| ProducerSendClosed                  (* line 176 on a closed channel *)
| Handoff (i : nat)                   (* line 176 meets line 83 of worker [i] *)
| ProducerCount                       (* lines 177-184 *)
| ProducerClose                       (* line 187 *)
| WorkerCancelled (i : nat)           (* lines 81-82 *)
| WorkerNoJobs (i : nat)              (* lines 83-86 on a closed channel *)
| WorkerQuery (i : nat) (w : Attempt) (* line 87 *)
| WorkerSend (i : nat)                (* line 88 *)
| WorkerSendClosed (i : nat)          (* line 88 on a closed channel *)
| CloserWait                          (* line 160 *)
| CloserClose                         (* line 161 *)
| AggregatorRecv                      (* lines 194-199 *)
| AggregatorEnd                       (* line 200 *)
| MainInterrupted                     (* lines 204-206 *)
| MainCompleted                       (* lines 207-208 *)
| MainDrained                         (* line 211 *)
| MainLoad (elapsed : Z)              (* lines 213-215 *)
| MainReport.                         (* lines 216-227 *)

(** The process runs until [main] returns or a goroutine panics. *)
Definition running (s : State) : bool :=
  match panicked s, coordinator s with
  | None, MReturned _ => false
  | None, _ => true
  | Some _, _ => false
  end.

(** [signal.Notify] has been called: from then on SIGINT is delivered to
    [sigChan].  (Before that it would end the process; such runs are not
    part of the model.) *)
Definition listening (m : MainPC) : bool :=
  match m with MWorkers _ | MCloser | MNotify => false | _ => true end.

(** [return] in [worker]: the deferred [wg.Done()]. *)
Definition worker_return (i : nat) (s : State) : State :=
  if wg s - 1 <? 0 then panic NegativeWaitGroup s
  else set_wg (wg s - 1) (set_workers (<[i:=WReturned]> (workers s)) s).

Section Machine.

Variable rt : Runtime.
Variable codec : Codec.
Variable cfg : Config.

(** The state when [main] reaches line 153: the context and the two
    channels exist (if [make] has returned), no goroutine has been
    started. *)
Definition init : State :=
  {| producer := PNotStarted; workers := [];
     closer := CNotStarted; aggregator := ANotStarted; coordinator := MWorkers 0;
     cancelled := false; sigChan := false; jobsClosed := false;
     results := []; resultsClosed := false; doneClosed := false;
     wg := 0; queryCount := 0; successCount := 0; totalDuration := 0;
     panicked := makechan rt (concurrency cfg) |}.

Definition step (l : Label) (s : State) : option State :=
  if negb (running s) then None else
  match l with
  | Interrupt =>
      (* [signal.Notify] does not block: the signal is dropped when the
         buffer of [sigChan] is full *)
      if listening (coordinator s) then Some (set_sigChan true s) else None
  | MainWorkerLoop =>
      match coordinator s with
      | MWorkers i =>
          if i <? concurrency cfg
          then Some (set_coordinator (MWorkers (i + 1))
                       (set_workers (workers s ++ [WSelect]) (set_wg (wg s + 1) s)))
          else Some (set_coordinator MCloser s)
      | _ => None
      end
  | MainSpawnCloser =>
      match coordinator s with
      | MCloser => Some (set_coordinator MNotify (set_closer CWait s))
      | _ => None
      end
  | MainNotify =>
      match coordinator s with
      | MNotify => Some (set_coordinator MProducer s)
      | _ => None
      end
  | MainSpawnProducer =>
      match coordinator s with
      | MProducer => Some (set_coordinator MAggregator (set_producer PLoop s))
      | _ => None
      end
  | MainSpawnAggregator =>
      match coordinator s with
      | MAggregator => Some (set_coordinator MSelect (set_aggregator ARange s))
      | _ => None
      end
  | ProducerLoop =>
      match producer s with
      | PLoop =>
          if (queries cfg =? -1) || (queryCount s <? queries cfg)
          then Some (set_producer PSelect s)
          else Some (set_producer PClose s)
      | _ => None
      end
  | ProducerSelect =>
      match producer s with
      | PSelect =>
          if cancelled s then Some (set_producer PReturned s)
          else Some (set_producer PSend s)
      | _ => None
      end
  | ProducerSendClosed =>
      match producer s with
      | PSend => if jobsClosed s then Some (panic SendOnClosedChannel s) else None
      | _ => None
      end
  | Handoff i =>
      match producer s, workers s !! i with
      | PSend, Some WSelect =>
          if jobsClosed s then None
          else Some (set_producer PCount (set_workers (<[i:=WQuery]> (workers s)) s))
      | _, _ => None
      end
  | ProducerCount =>
      match producer s with
      | PCount => Some (set_producer PLoop (set_queryCount (add64 (queryCount s) 1) s))
      | _ => None
      end
  | ProducerClose =>
      match producer s with
      | PClose => Some (set_producer PReturned (set_jobsClosed true s))
      | _ => None
      end
  | WorkerCancelled i =>
      match workers s !! i with
      | Some WSelect => if cancelled s then Some (worker_return i s) else None
      | _ => None
      end
  | WorkerNoJobs i =>
      match workers s !! i with
      | Some WSelect => if jobsClosed s then Some (worker_return i s) else None
      | _ => None
      end
  | WorkerQuery i w =>
      match workers s !! i with
      | Some WQuery =>
          match performDNSQuery codec w (dnsServer cfg) (domain cfg) (recordType cfg) with
          | (_, Returned r) => Some (set_workers (<[i:=WSend r]> (workers s)) s)
          | (_, Panic msg) => Some (panic (Uncaught msg) s)
          end
      | _ => None
      end
  | WorkerSend i =>
      match workers s !! i with
      | Some (WSend r) =>
          if negb (resultsClosed s) && (Z.of_nat (length (results s)) <? concurrency cfg)
          then Some (set_results (results s ++ [r])
                       (set_workers (<[i:=WSelect]> (workers s)) s))
          else None
      | _ => None
      end
  | WorkerSendClosed i =>
      match workers s !! i with
      | Some (WSend r) =>
          if resultsClosed s then Some (panic SendOnClosedChannel s) else None
      | _ => None
      end
  | CloserWait =>
      match closer s with
      | CWait => if wg s =? 0 then Some (set_closer CClose s) else None
      | _ => None
      end
  | CloserClose =>
      match closer s with
      | CClose => Some (set_closer CReturned (set_resultsClosed true s))
      | _ => None
      end
  | AggregatorRecv =>
      match aggregator s, results s with
      | ARange, r :: rest =>
          let s1 := set_totalDuration (add64 (totalDuration s) (Duration r))
                      (set_results rest s) in
          Some (if Success r
                then set_successCount (add64 (successCount s) 1) s1
                else s1)
      | _, _ => None
      end
  | AggregatorEnd =>
      match aggregator s, results s with
      | ARange, [] =>
          if resultsClosed s
          then Some (set_aggregator AReturned (set_doneClosed true s))
          else None
      | _, _ => None
      end
  | MainInterrupted =>
      match coordinator s with
      | MSelect =>
          if sigChan s
          then Some (set_coordinator MDrain (set_cancelled true (set_sigChan false s)))
          else None
      | _ => None
      end
  | MainCompleted =>
      match coordinator s with
      | MSelect => if doneClosed s then Some (set_coordinator MDrain s) else None
      | _ => None
      end
  | MainDrained =>
      match coordinator s with
      | MDrain => if doneClosed s then Some (set_coordinator MLoad s) else None
      | _ => None
      end
  | MainLoad elapsed =>
      match coordinator s with
      | MLoad => Some (set_coordinator (MStats (queryCount s) (successCount s) elapsed) s)
      | _ => None
      end
  | MainReport =>
      match coordinator s with
      | MStats fq fs elapsed =>
          match Report.statistics (totalDuration s) fq fs elapsed with
          | Returned st => Some (set_coordinator (MReturned st) s)
          | Panic msg => Some (panic (Uncaught msg) s)
          end
      | _ => None
      end
  end.

(** A schedule, oldest action first. *)
Fixpoint run (ls : list Label) (s : State) : option State :=
  match ls with
  | [] => Some s
  | l :: ls' =>
      match step l s with
      | Some s' => run ls' s'
      | None => None
      end
  end.

(** [exec tr s]: the program reaches [s] from [init], having performed the
    actions of [tr], newest first. *)
Inductive exec : list Label → State → Prop :=
| exec_init : exec [] init
| exec_step tr s l s' : exec tr s → step l s = Some s' → exec (l :: tr) s'.

End Machine.

(** *** What a trace says about a run *)

Definition is_interrupt (l : Label) : bool :=
  match l with Interrupt => true | _ => false end.
Definition is_handoff (l : Label) : bool :=
  match l with Handoff _ => true | _ => false end.
Definition is_count (l : Label) : bool :=
  match l with ProducerCount => true | _ => false end.
Definition is_send (l : Label) : bool :=
  match l with WorkerSend _ => true | _ => false end.
Definition is_recv (l : Label) : bool :=
  match l with AggregatorRecv => true | _ => false end.

(** How many elements of a list satisfy [p]. *)
Fixpoint tally {A} (p : A → bool) (l : list A) : Z :=
  match l with
  | [] => 0
  | x :: l' => (if p x then 1 else 0) + tally p l'
  end.

(** Jobs the producer has handed to a worker. *)
Definition produced (tr : list Label) : Z := tally is_handoff tr.
(** Jobs the producer has added to [queryCount]. *)
Definition counted (tr : list Label) : Z := tally is_count tr.
(** Results that workers have put on [results]. *)
Definition pushed (tr : list Label) : Z := tally is_send tr.
(** Results the aggregator has taken off [results]. *)
Definition aggregated (tr : list Label) : Z := tally is_recv tr.
(** A run in which Ctrl-C is never pressed. *)
Definition uninterrupted (tr : list Label) : Prop := tally is_interrupt tr = 0.

(** *** Shapes of the worker list *)

Definition active (w : WorkerPC) : bool :=
  match w with WReturned => false | _ => true end.
Definition returned (w : WorkerPC) : bool := negb (active w).
Definition busy (w : WorkerPC) : bool :=
  match w with WQuery | WSend _ => true | _ => false end.

(** [main] is past line 211. *)
Definition reporting (m : MainPC) : bool :=
  match m with MLoad | MStats _ _ _ | MReturned _ => true | _ => false end.

(** What [main] has started so far. *)
Definition closer_started (m : MainPC) : bool :=
  match m with MWorkers _ | MCloser => false | _ => true end.
Definition producer_started (m : MainPC) : bool :=
  match m with MWorkers _ | MCloser | MNotify | MProducer => false | _ => true end.
Definition aggregator_started (m : MainPC) : bool :=
  match m with
  | MWorkers _ | MCloser | MNotify | MProducer | MAggregator => false
  | _ => true
  end.

(** The workers started so far. *)
Definition started_workers (n : Z) (m : MainPC) : Z :=
  match m with MWorkers i => i | _ => Z.max 0 n end.

(** The closer is past [wg.Wait()]. *)
Definition past_wait (c : CloserPC) : bool :=
  match c with CClose | CReturned => true | _ => false end.

(** Actions of the program itself, as opposed to the operator's. *)
Definition is_program (l : Label) : bool := negb (is_interrupt l).
Definition program_steps (tr : list Label) : Z := tally is_program tr.

(** *** How far each goroutine is from its end

    The weights are chosen so that every action of the program uses up at
    least one unit of [remaining] (below). *)
Definition producer_weight (p : ProducerPC) : Z :=
  match p with
  | PNotStarted | PLoop => 9
  | PSelect => 8 | PSend => 7 | PCount => 2 | PClose => 1 | PReturned => 0
  end.

Definition worker_weight (w : WorkerPC) : Z :=
  match w with WSelect => 1 | WQuery => 4 | WSend _ => 3 | WReturned => 0 end.

Fixpoint workers_weight (ws : list WorkerPC) : Z :=
  match ws with
  | [] => 0
  | w :: ws' => worker_weight w + workers_weight ws'
  end.

Definition closer_weight (c : CloserPC) : Z :=
  match c with CNotStarted | CWait => 2 | CClose => 1 | CReturned => 0 end.

Definition aggregator_weight (a : AggregatorPC) : Z :=
  match a with ANotStarted | ARange => 1 | AReturned => 0 end.

(** [finalQueryCount] and [finalSuccessCount], once [main] has read them on
    lines 213-214. *)
Definition finalQueryCount (m : MainPC) : option Z :=
  match m with
  | MStats fq _ _ => Some fq
  | MReturned st => Some (Report.totalQueries st)
  | _ => None
  end.

Definition finalSuccessCount (m : MainPC) : option Z :=
  match m with
  | MStats _ fs _ => Some fs
  | MReturned st => Some (Report.successful st)
  | _ => None
  end.

(** *** Invariants of the runs

    The facts about reachable states that the proofs below establish by
    induction on [exec]. *)

Section Invariants.

Variable cfg : Config.

(** *** How the goroutines hang together

    [wg] counts the workers that have not returned; the closer leaves
    [wg.Wait()] only when there are none left, [results] is closed only by
    the closer and [done] only by the aggregator, [jobs] only by the
    producer on its way out. *)
Record structural (s : State) : Prop := {
  st_spawn : 0 ≤ started_workers (concurrency cfg) (coordinator s)
               ≤ Z.max 0 (concurrency cfg);
  st_workers : Z.of_nat (length (workers s))
               = started_workers (concurrency cfg) (coordinator s);
  st_cstart : closer s = CNotStarted ↔ closer_started (coordinator s) = false;
  st_pstart : producer s = PNotStarted ↔ producer_started (coordinator s) = false;
  st_astart : aggregator s = ANotStarted ↔ aggregator_started (coordinator s) = false;
  st_wg : wg s = tally active (workers s);
  st_closer : past_wait (closer s) = true → tally active (workers s) = 0;
  st_results : resultsClosed s = true ↔ closer s = CReturned;
  st_done : doneClosed s = true ↔ aggregator s = AReturned;
  st_agg : aggregator s = AReturned → resultsClosed s = true ∧ results s = [];
  st_jobs : jobsClosed s = true → producer s = PReturned;
  st_prod : producer s = PReturned → jobsClosed s = true ∨ cancelled s = true;
  st_main : reporting (coordinator s) = true → doneClosed s = true;
  st_cap : Z.of_nat (length (results s)) ≤ Z.max 0 (concurrency cfg);
  st_chan : panicked s ≠ Some SendOnClosedChannel;
  st_neg : panicked s ≠ Some NegativeWaitGroup;
}.

(** *** Where every job is

    A job the producer has handed over is a result on [results], a result
    the aggregator has taken, or still with a worker; [queryCount] trails
    the hand-overs by the one the producer has not counted yet. *)
Definition uncounted (p : ProducerPC) : Z :=
  match p with PCount => 1 | _ => 0 end.

Record accounted (tr : list Label) (s : State) : Prop := {
  ac_jobs : produced tr = pushed tr + tally busy (workers s);
  ac_results : pushed tr = aggregated tr + Z.of_nat (length (results s));
  ac_counted : produced tr = counted tr + uncounted (producer s);
  ac_query : queryCount s = wrap64 (counted tr);
  ac_success : ∃ k, 0 ≤ k ≤ aggregated tr ∧ successCount s = wrap64 k;
}.

(** What holds as long as Ctrl-C has not been pressed: nothing is
    cancelled, and a worker can only have returned because [jobs] is
    closed. *)
Record quiet (s : State) : Prop := {
  qu_sig : sigChan s = false;
  qu_cancel : cancelled s = false;
  qu_workers : 1 ≤ tally returned (workers s) → jobsClosed s = true;
}.

(** With a query limit the producer is inside its loop only while jobs
    are left, and past it only when none is. *)
Definition sending (p : ProducerPC) : bool :=
  match p with PSelect | PSend | PCount => true | _ => false end.

Record limited (tr : list Label) (s : State) : Prop := {
  li_le : counted tr ≤ Z.max 0 (queries cfg);
  li_lt : sending (producer s) = true → counted tr < queries cfg;
  li_close : producer s = PClose → queries cfg ≤ counted tr;
  li_ret : cancelled s = false → producer s = PReturned → queries cfg ≤ counted tr;
}.

(** A worker still to be started is worth two units: starting it and
    letting it return. *)
Definition main_weight (m : MainPC) : Z :=
  match m with
  | MWorkers i => 9 + 2 * Z.max 0 (concurrency cfg - i)
  | MCloser => 8 | MNotify => 7 | MProducer => 6 | MAggregator => 5
  | MSelect => 4 | MDrain => 3 | MLoad => 2 | MStats _ _ _ => 1 | MReturned _ => 0
  end.

(** Everything but the jobs the producer has still to hand out. *)
Definition local_weight (s : State) : Z :=
  producer_weight (producer s) + workers_weight (workers s) +
  closer_weight (closer s) + aggregator_weight (aggregator s) +
  Z.of_nat (length (results s)) + main_weight (coordinator s) +
  match panicked s with Some _ => 0 | None => 1 end.

(** *** Every action uses up [remaining]

    A job still to be handed out is worth eight units: the producer's way
    around its loop and the worker's way around its own. *)
Definition remaining (s : State) : Z := 8 * (queries cfg - queryCount s) + local_weight s.

(** *** Where a run can panic

    The channel and wait-group panics are excluded by [structural]; a
    worker panics only in [MustNewName]; what is left is the division on
    line 216. *)
Definition divide_by_zero : Fault := Uncaught "runtime error: integer divide by zero".

(** A sender that finds no receiver: the producer is in [jobs <- 1] and
    every worker has returned.  Nothing that happens afterwards lets the
    producer leave that statement. *)
Definition stranded (s : State) : Prop :=
  producer s = PSend ∧ tally active (workers s) = 0 ∧
  jobsClosed s = false ∧ producer_started (coordinator s) = true.

End Invariants.

End Pool.

(** ** Scenarios

    Concrete environments and schedules on which the model is run. *)

Module Scenario.
Import Startup Dnsmessage Executor Pool.

(** A stand-in for the wire codec, for running the model: the packet is the
    text of the question names, and every response decodes. *)
Definition test_codec : Codec :=
  {| Pack := λ m, Some (flat_map (λ q, String.list_byte_of_string (Name q)) (Questions m));
     Unpack := λ _, true |}.

(** The network answers in time. *)
Definition answered (ns : Z) : Attempt :=
  {| dial_fails := false; rand_int63 := 4242; write_fails := false;
     datagram := Some [Byte.x10; Byte.x92]; since_start := ns |}.

(** The network never answers. *)
Definition timed_out : Attempt :=
  {| dial_fails := false; rand_int63 := 7; write_fails := false;
     datagram := None; since_start := 5 * Second |}.

Fixpoint repeat_char (n : nat) (c : Ascii.ascii) : string :=
  match n with
  | O => EmptyString
  | S n' => String c (repeat_char n' c)
  end.

(** A 64-bit Linux machine ([maxAlloc] is 2^48 bytes, a [QueryResult] takes
    16 and the header of a channel 96) with the memory for a buffer of 2^26
    results. *)
Definition test_rt : Runtime :=
  {| chanRange := 17592186044410; chanMemory := 67108864 |}.

Definition example_cfg (limit workers : Z) : Config :=
  {| domain := "example.com"; recordType := 1; queries := limit;
     concurrency := workers; dnsServer := "8.8.8.8:53" |}.

(** Lines 153-201 without interference: [main] starts [n] workers and the
    three other goroutines before any of them moves. *)
Definition boot (n : nat) : list Label :=
  replicate n MainWorkerLoop ++
  [MainWorkerLoop; MainSpawnCloser; MainNotify; MainSpawnProducer; MainSpawnAggregator].

(** Where a schedule leads, the initial state if it cannot be run. *)
Definition outcome (cfg : Config) (ls : list Label) : State :=
  default (init test_rt cfg) (run test_codec cfg ls (init test_rt cfg)).

(** [-queries 2 -concurrency 2]: two workers take one job each, one query
    is answered and one times out, and nobody presses Ctrl-C. *)
Definition two_jobs : list Label :=
  boot 2 ++
  [ProducerLoop; ProducerSelect; Handoff 0; ProducerCount;
   ProducerLoop; ProducerSelect; Handoff 1; ProducerCount; ProducerLoop;
   WorkerQuery 1 (answered 30000000); WorkerQuery 0 timed_out;
   WorkerSend 1; ProducerClose; WorkerSend 0; AggregatorRecv;
   WorkerNoJobs 0; AggregatorRecv; WorkerNoJobs 1;
   CloserWait; CloserClose; AggregatorEnd;
   MainCompleted; MainDrained; MainLoad 5030000000; MainReport].

(** [-queries 0 -concurrency 1]: the producer closes [jobs] at once. *)
Definition no_jobs : list Label :=
  boot 1 ++
  [ProducerLoop; ProducerClose; WorkerNoJobs 0; CloserWait; CloserClose;
   AggregatorEnd; MainCompleted; MainDrained; MainLoad 1000000; MainReport].

(** [-concurrency 0 -queries 5]. *)
Definition no_workers : list Label :=
  boot 0 ++
  [ProducerLoop; ProducerSelect; CloserWait; CloserClose; AggregatorEnd;
   MainCompleted; MainDrained; MainLoad 1000000].

(** [-concurrency 1], no limit.  The producer is back in [jobs <- 1] while
    the only worker is still busy with the first job; Ctrl-C arrives; the
    worker finishes its query, sees [ctx.Done()] and returns. *)
Definition cancel_during_send : list Label :=
  boot 1 ++
  [ProducerLoop; ProducerSelect; Handoff 0; ProducerCount;
   ProducerLoop; ProducerSelect;
   Interrupt; MainInterrupted;
   WorkerQuery 0 (answered 20000000); WorkerSend 0; WorkerCancelled 0].

(** ... and the rest of that run, up to the exit of [main]. *)
Definition shutdown : list Label :=
  [CloserWait; CloserClose; AggregatorRecv; AggregatorEnd;
   MainDrained; MainLoad 25000000; MainReport].

(** [-concurrency 1], no limit.  Two jobs are handed over and answered, but
    Ctrl-C arrives before the producer has counted the second one, and
    [main] reads [queryCount] before the producer runs again. *)
Definition cancel_before_count : list Label :=
  boot 1 ++
  [ProducerLoop; ProducerSelect; Handoff 0; ProducerCount;
   WorkerQuery 0 (answered 10000000); WorkerSend 0; AggregatorRecv;
   ProducerLoop; ProducerSelect; Handoff 0;
   WorkerQuery 0 (answered 20000000); WorkerSend 0; AggregatorRecv;
   Interrupt; MainInterrupted; WorkerCancelled 0;
   CloserWait; CloserClose; AggregatorEnd;
   MainDrained; MainLoad 40000000; MainReport].


End Scenario.

(** ** Further views of the model

    Counting functions over the events of an attempt, and the weights for
    the shutdown after [cancel()]. *)

Module Views.
Import Startup Dnsmessage Executor Pool.

Definition is_close (e : Event) : bool :=
  match e with EvClose => true | _ => false end.
Definition is_log (e : Event) : bool :=
  match e with EvLog _ => true | _ => false end.
Definition is_write (e : Event) : bool :=
  match e with EvWrite _ => true | _ => false end.

(** The way of the producer once the context is cancelled: it can complete
    a pending hand-over and count it, and then leaves at its next [select]. *)
Definition drain_producer_weight (p : ProducerPC) : Z :=
  match p with
  | PSend => 10 | PCount => 4 | PLoop => 3 | PSelect => 2 | PClose => 1
  | PReturned | PNotStarted => 0
  end.

(** [main] after [cancel()]. *)
Definition drain_main_weight (m : MainPC) : Z :=
  match m with MDrain => 3 | MLoad => 2 | MStats _ _ _ => 1 | _ => 0 end.

Definition drain_weight (s : State) : Z :=
  drain_producer_weight (producer s) + workers_weight (workers s) +
  closer_weight (closer s) + aggregator_weight (aggregator s) +
  Z.of_nat (length (results s)) + drain_main_weight (coordinator s) +
  match panicked s with Some _ => 0 | None => 1 end.

(** [main] is past its [select]. *)
Definition past_select (m : MainPC) : bool :=
  match m with MDrain | MLoad | MStats _ _ _ | MReturned _ => true | _ => false end.

(** Why things have happened: a signal is only in [sigChan] after Ctrl-C,
    the context is only cancelled by [main] taking that signal, a worker
    has only returned after cancellation or after [close(jobs)], and the
    producer only closes [jobs] when a limit has been reached. *)
Record caused (cfg : Config) (tr : list Label) (s : State) : Prop := {
  ca_sig : sigChan s = true → Interrupt ∈ tr;
  ca_cancel : cancelled s = true →
              Interrupt ∈ tr ∧ MainInterrupted ∈ tr ∧ past_select (coordinator s) = true;
  ca_worker : 1 ≤ tally returned (workers s) →
              cancelled s = true ∨ jobsClosed s = true;
  ca_close : producer s = PClose ∨ jobsClosed s = true →
             queries cfg ≠ -1 ∧ queries cfg ≤ queryCount s;
}.

(** *** What the queries of a run have answered *)







End Views.

(** * Properties *)

Import Scenario Views.

(** ** Strings *)

Lemma length_append (a b : string) :
  String.length (a +:+ b) = (String.length a + String.length b)%nat.
Proof. induction a as [|c a IH]; simpl; [done | by rewrite IH]. Qed.

Lemma append_dot_neq (a : string) : a +:+ "." ≠ a.
Proof.
  intros H. apply (f_equal String.length) in H.
  rewrite length_append in H. simpl in H. lia.
Qed.

Lemma Contains_cons (c : Ascii.ascii) (s : string) :
  Contains (String c s) ":" = Ascii.eqb ":" c || Contains s ":".
Proof.
  change (Contains (String c s) ":")
    with (String.prefix ":" (String c s) || Contains s ":").
  f_equal. unfold String.prefix.
  destruct (Ascii.ascii_dec ":" c) as [<- | Hne].
  - by destruct s.
  - symmetry. by apply Ascii.eqb_neq.
Qed.

Lemma Contains_colon (s : string) :
  Contains s ":" = true ↔ In ":"%char (String.list_ascii_of_string s).
Proof.
  induction s as [|c s IH].
  - split; [discriminate | intros []].
  - rewrite Contains_cons, orb_true_iff, IH, Ascii.eqb_eq.
    change (String.list_ascii_of_string (String c s))
      with (c :: String.list_ascii_of_string s).
    simpl. split; (intros [? | ?]; [left | right]); done.
Qed.

Lemma Contains_colon_false (s : string) :
  Contains s ":" = false ↔ ¬ In ":"%char (String.list_ascii_of_string s).
Proof. rewrite <- Contains_colon. destruct (Contains s ":"); split; congruence. Qed.

(** ** Flags *)

Section StartupFacts.
Import Startup.

Lemma recordTypeMap_lookup (m : string) (c : Z) :
  recordTypeMap !! m = Some c ↔ (m, c) ∈ recordTypeTable.
Proof.
  unfold recordTypeMap. symmetry. apply elem_of_list_to_map.
  apply (bool_decide_unpack _). vm_compute. reflexivity.
Qed.

(** C7.  [recordTypeMap] holds exactly the eight pairs A=1, NS=2, CNAME=5,
    SOA=6, PTR=12, MX=15, TXT=16, AAAA=28, and when the [type] flag is none
    of the eight mnemonics [main] exits with status 1 before the pool is
    started, whatever the other flags are. *)
Theorem C7_record_type_table :
  (∀ (m : string) (c : Z),
     recordTypeMap !! m = Some c ↔
     (m = "A" ∧ c = 1) ∨ (m = "NS" ∧ c = 2) ∨ (m = "CNAME" ∧ c = 5) ∨
     (m = "SOA" ∧ c = 6) ∨ (m = "PTR" ∧ c = 12) ∨ (m = "MX" ∧ c = 15) ∨
     (m = "TXT" ∧ c = 16) ∨ (m = "AAAA" ∧ c = 28)) ∧
  (∀ (fl : Flags) (open_ok : bool),
     flag_type fl ∉ ["A"; "NS"; "CNAME"; "SOA"; "PTR"; "MX"; "TXT"; "AAAA"] →
     startup fl open_ok = Exit 1).
Proof.
  split.
  - intros m c. rewrite recordTypeMap_lookup. unfold recordTypeTable.
    rewrite !elem_of_cons, elem_of_nil. split.
    + intros H. repeat (destruct H as [H | H]; [inversion H; tauto |]). done.
    + intros H. repeat (destruct H as [[-> ->] | H]; [tauto |]).
      destruct H as [-> ->]. tauto.
  - intros fl open_ok Hout. unfold startup.
    destruct (flag_domain fl =? "")%string; [done |].
    destruct (negb (flag_log fl =? "")%string && negb open_ok); [done |].
    destruct (recordTypeMap !! flag_type fl) as [c |] eqn:Hc; [| done].
    exfalso. apply Hout. apply recordTypeMap_lookup in Hc.
    apply (list_elem_of_fmap_2 fst) in Hc. exact Hc.
Qed.

Lemma C7_record_type_table_witness :
  startup {| flag_domain := "example.com"; flag_type := "ZZZ"; flag_queries := 5;
             flag_concurrency := 1; flag_dns := "8.8.8.8"; flag_log := "" |} true
  = Exit 1.
Proof.
  apply (proj2 C7_record_type_table).
  rewrite !elem_of_cons, elem_of_nil. intros H.
  repeat (destruct H as [H | H]; [discriminate H |]). done.
Defined.

Lemma split_last_colon_None (s : string) :
  split_last_colon s = None ↔ Contains s ":" = false.
Proof.
  induction s as [|c s IH]; [done |].
  rewrite Contains_cons, orb_false_iff, <- IH. cbn [split_last_colon].
  destruct (split_last_colon s) as [[host port] |].
  - split; [done | intros [_ ?]; done].
  - rewrite (Ascii.eqb_sym c). destruct (Ascii.eqb ":" c); intuition congruence.
Qed.

(** The documented form on the usual addresses. *)
Example spec_port_present_examples :
  spec_port_present "8.8.8.8" = false ∧ spec_port_present "8.8.8.8:53" = true ∧
  spec_port_present "dns.google:5353" = true ∧ spec_port_present "[::1]:53" = true ∧
  spec_port_present "::1" = false ∧ spec_port_present "2001:4860:4860::8888" = false.
Proof. vm_compute. done. Qed.

(** The program and the documented form agree on every address without a
    colon and on every address with a port; they differ exactly on the
    addresses that have a colon and no port. *)
Lemma normalizeServer_agrees (dns : string) :
  normalizeServer dns = spec_normalizeServer dns ↔
  Contains dns ":" = spec_port_present dns.
Proof.
  unfold normalizeServer, spec_normalizeServer.
  destruct (Contains dns ":") eqn:Hc, (spec_port_present dns) eqn:Hp; simpl;
    split; try done.
  - intros H. exfalso. apply (f_equal String.length) in H.
    rewrite length_append in H. simpl in H. lia.
  - exfalso. apply split_last_colon_None in Hc.
    unfold spec_port_present in Hp. by rewrite Hc in Hp.
Qed.

(** C8, as stated, read with the documented form of an address: the flag
    keeps its value when it carries a port and gets ":53" appended when it
    does not.  The IPv6 address "::1" carries no port and is left alone. *)
Lemma C8_port_presence_counterexample :
  ¬ (∀ dns : string, normalizeServer dns = spec_normalizeServer dns).
Proof. intros H. specialize (H "::1"). vm_compute in H. discriminate H. Qed.

(** C8, amended.  The test is for a colon, not for a port: a [dns] flag
    without any colon gets ":53" appended, a flag with a colon anywhere is
    used as it is; the pool is started with the resulting address. *)
Theorem C8_colon_decides_default_port (dns : string) :
  (¬ In ":"%char (String.list_ascii_of_string dns) → normalizeServer dns = dns +:+ ":53") ∧
  (In ":"%char (String.list_ascii_of_string dns) → normalizeServer dns = dns) ∧
  (∀ fl open_ok cfg, flag_dns fl = dns → startup fl open_ok = Run cfg →
     dnsServer cfg = normalizeServer dns).
Proof.
  unfold normalizeServer. repeat split.
  - intros H. apply Contains_colon_false in H. by rewrite H.
  - intros H. apply Contains_colon in H. by rewrite H.
  - intros fl open_ok cfg <-. unfold startup, normalizeServer.
    repeat case_match; intros; simplify_eq; done.
Qed.

Lemma C8_colon_decides_default_port_witness :
  normalizeServer "8.8.8.8" = "8.8.8.8:53" ∧
  normalizeServer "8.8.8.8:5353" = "8.8.8.8:5353" ∧
  ∃ cfg, startup (defaults "example.com") true = Run cfg ∧ dnsServer cfg = "8.8.8.8:53".
Proof.
  pose proof (C8_colon_decides_default_port "8.8.8.8") as (H1 & _ & H3).
  pose proof (C8_colon_decides_default_port "8.8.8.8:5353") as (_ & H2 & _).
  split; [| split].
  - apply H1. vm_compute. intros H. repeat (destruct H as [H | H]; [discriminate H |]). done.
  - apply H2. vm_compute. tauto.
  - eexists. split; [vm_compute; reflexivity |]. reflexivity.
Defined.

End StartupFacts.

(** ** [performDNSQuery] *)

Section ExecutorFacts.
Import Dnsmessage Executor Scenario.

Variable codec : Codec.
Variables (dnsServer domain : string) (recordType : Z).

(** Go through an event list looking for the [EvWrite]. *)
Ltac pick_write Hin :=
  repeat (apply elem_of_cons in Hin as [Hin | Hin];
          [first [discriminate Hin | by injection Hin as ->] |]);
  by apply elem_of_nil in Hin.

Ltac exec_unfold :=
  unfold mbind, body_bind, then_, defer, finish, emit, pure, leave, lift, failed in *.

Lemma question_fits :
  (String.length domain < nameLen)%nat →
  question domain recordType =
    Returned {| Name := domain +:+ "."; Type_ := recordType; Class := ClassINET |}.
Proof.
  intros Hlen. unfold question, MustNewName, NewName.
  rewrite decide_True; [done |]. rewrite length_append. simpl. lia.
Qed.

Lemma question_too_long :
  (nameLen ≤ String.length domain)%nat →
  question domain recordType = Panic ("creating name: " +:+ errCalcLen).
Proof.
  intros Hlen. unfold question, MustNewName, NewName.
  rewrite decide_False; [done |]. rewrite length_append. simpl. lia.
Qed.

(** What the caller gets back when the name fits. *)
Lemma performDNSQuery_returns (w : Attempt) :
  (String.length domain < nameLen)%nat →
  (performDNSQuery codec w dnsServer domain recordType).2 =
    Returned {| Duration := since_start w;
                Success := negb (dial_fails w) &&
                           round_trip codec w (query_message w domain recordType) |}.
Proof.
  intros Hlen. unfold performDNSQuery, round_trip, query_message.
  rewrite (question_fits Hlen). exec_unfold.
  destruct (dial_fails w); simpl; [done |].
  destruct (Pack codec _); simpl; [| done].
  destruct (write_fails w); simpl; [by destruct (datagram w) |].
  destruct (datagram w) as [d |]; simpl; [| done].
  by destruct (Unpack codec (read_buffer d)).
Qed.

(** What the caller gets back when it does not. *)
Lemma performDNSQuery_panics (w : Attempt) :
  (nameLen ≤ String.length domain)%nat →
  (performDNSQuery codec w dnsServer domain recordType).2 =
    if dial_fails w then Returned (failed w)
    else Panic ("creating name: " +:+ errCalcLen).
Proof.
  intros Hlen. unfold performDNSQuery.
  rewrite (question_too_long Hlen). exec_unfold. by destruct (dial_fails w).
Qed.

(** The five error branches of the function each return [Success = false]. *)
Lemma performDNSQuery_failure_modes (w : Attempt) (r : QueryResult) :
  (performDNSQuery codec w dnsServer domain recordType).2 = Returned r →
  dial_fails w = true ∨
  Pack codec (query_message w domain recordType) = None ∨
  write_fails w = true ∨
  datagram w = None ∨
  (∃ d, datagram w = Some d ∧ Unpack codec (read_buffer d) = false) →
  Success r = false.
Proof.
  intros Hr Hmode.
  destruct (decide (String.length domain < nameLen)%nat) as [Hlen | Hlen].
  - rewrite (performDNSQuery_returns w Hlen) in Hr. injection Hr as <-. simpl.
    unfold round_trip.
    destruct Hmode as [-> | [-> | [-> | [-> | (d & -> & ->)]]]];
      repeat case_match; rewrite ?andb_false_r; done.
  - rewrite performDNSQuery_panics in Hr by lia.
    destruct (dial_fails w); [| discriminate]. by injection Hr as <-.
Qed.

(** C9.  The question name is always [domain] followed by a dot, which is
    never [domain] itself, and every packet the function writes to the
    connection is the packing of a message whose single question carries
    that name. *)
Theorem C9_question_name_is_domain_dot (w : Attempt) :
  (∀ q, question domain recordType = Returned q →
        Name q = domain +:+ "." ∧ Name q ≠ domain) ∧
  (∀ packet,
     EvWrite packet ∈ (performDNSQuery codec w dnsServer domain recordType).1 →
     ∃ m q, Pack codec m = Some packet ∧ Questions m = [q] ∧
            Name q = domain +:+ "." ∧ Name q ≠ domain).
Proof.
  split.
  - intros q. unfold question. destruct (MustNewName _) as [n |] eqn:Hn; [| done].
    intros [= <-]. simpl. unfold MustNewName, NewName in Hn.
    case_decide; simplify_eq. split; [done | apply append_dot_neq].
  - intros packet Hin.
    destruct (decide (String.length domain < nameLen)%nat) as [Hlen | Hlen].
    + exists (query_message w domain recordType). eexists. simpl.
      split; [| split; [done | split; [done | apply append_dot_neq]]].
      unfold performDNSQuery, query_message in *.
      rewrite (question_fits Hlen) in Hin. exec_unfold.
      destruct (dial_fails w); simpl in Hin; [pick_write Hin |].
      destruct (Pack codec _) as [p |]; simpl in Hin; [| pick_write Hin].
      destruct (write_fails w); simpl in Hin; [pick_write Hin |].
      destruct (datagram w); simpl in Hin; [| pick_write Hin].
      destruct (Unpack codec _); simpl in Hin; pick_write Hin.
    + unfold performDNSQuery in Hin.
      rewrite question_too_long in Hin by lia. exec_unfold.
      destruct (dial_fails w); simpl in Hin; pick_write Hin.
Qed.

End ExecutorFacts.

(** On a successful attempt for "example.com" the packet that goes out
    carries "example.com.". *)
Lemma C9_question_name_is_domain_dot_witness :
  ∃ m q, Dnsmessage.Pack test_codec m =
           Some (String.list_byte_of_string "example.com.") ∧
         Dnsmessage.Questions m = [q] ∧
         Dnsmessage.Name q = "example.com." ∧ Dnsmessage.Name q ≠ "example.com".
Proof.
  apply (proj2 (C9_question_name_is_domain_dot test_codec "8.8.8.8:53" "example.com" 1
                  (answered 20000000))).
  vm_compute. apply list_elem_of_further, list_elem_of_here.
Defined.

(** C2 fails for a long domain: with a domain of 255 characters the call
    does not return a [QueryResult]; it dials, panics in [MustNewName] and only
    runs the deferred [Close]. *)
Theorem C2_overlong_domain_panics :
  Executor.performDNSQuery test_codec (answered 1000) "8.8.8.8:53"
      (repeat_char 255 "a") 1 =
    ([Executor.EvDial "udp" "8.8.8.8:53"; Executor.EvClose],
     Panic "creating name: insufficient data for calculated length type").
Proof. vm_compute. reflexivity. Qed.

(** ** The report *)

(** The average is an [int64] division by
    [finalQueryCount], so a report over zero queries panics before anything
    is printed. *)
Lemma statistics_without_queries (totalDuration finalSuccessCount elapsed : Z) :
  Report.statistics totalDuration 0 finalSuccessCount elapsed =
    Panic "runtime error: integer divide by zero".
Proof. reflexivity. Qed.

Lemma statistics_with_queries (totalDuration fq fs elapsed : Z) :
  fq ≠ 0 → ∃ st, Report.statistics totalDuration fq fs elapsed = Returned st ∧
                 Report.totalQueries st = fq ∧ Report.successful st = fs.
Proof.
  intros Hfq. unfold Report.statistics, div64.
  destruct (fq =? 0) eqn:E; [lia |]. eexists. split; [reflexivity |]. done.
Qed.

(** ** [int64] counters *)

Lemma wrap64_small (z : Z) : in_int64 z → wrap64 z = z.
Proof.
  unfold in_int64, minInt64, maxInt64, wrap64. intros H.
  rewrite Z.mod_small; lia.
Qed.

Lemma wrap64_add (a b : Z) : add64 (wrap64 a) b = wrap64 (a + b).
Proof.
  unfold add64, wrap64.
  replace ((a + 2 ^ 63) `mod` 2 ^ 64 - 2 ^ 63 + b + 2 ^ 63)
    with ((a + 2 ^ 63) `mod` 2 ^ 64 + b) by lia.
  rewrite Zplus_mod_idemp_l. f_equal. f_equal. lia.
Qed.

(** ** The goroutines *)

Section TallyFacts.
Import Pool.
Context {A : Type}.
Implicit Types (p : A → bool) (l : list A).

Lemma tally_nonneg p l : 0 ≤ tally p l.
Proof. induction l as [|x l IH]; simpl; [done | destruct (p x); lia]. Qed.


Lemma tally_app p l1 l2 : tally p (l1 ++ l2) = tally p l1 + tally p l2.
Proof. induction l1 as [|x l1 IH]; simpl; [done | rewrite IH; lia]. Qed.

Lemma tally_replicate p n x :
  tally p (replicate n x) = if p x then Z.of_nat n else 0.
Proof.
  induction n as [|n IH]; simpl replicate; [by destruct (p x) |].
  simpl tally. rewrite IH. destruct (p x); lia.
Qed.

(** Overwriting the [i]-th element moves the tally by the difference of the
    two elements. *)
Lemma tally_insert p l i x y :
  l !! i = Some x →
  tally p (<[i:=y]> l) = tally p l - (if p x then 1 else 0) + (if p y then 1 else 0).
Proof.
  revert i. induction l as [|z l IH]; intros [|i] Hi; simplify_eq/=.
  - lia.
  - rewrite (IH i Hi). lia.
Qed.

Lemma tally_lookup p l i x : l !! i = Some x → p x = true → 1 ≤ tally p l.
Proof.
  revert i. induction l as [|z l IH]; intros [|i] Hi Hp; simplify_eq/=.
  - rewrite Hp. pose proof (tally_nonneg p l). lia.
  - specialize (IH i Hi Hp). destruct (p z); lia.
Qed.

Lemma tally_none p l : tally p l = 0 → ∀ i x, l !! i = Some x → p x = false.
Proof.
  intros H0 i x Hi. destruct (p x) eqn:Hp; [| done].
  pose proof (tally_lookup p l i x Hi Hp). lia.
Qed.

Lemma tally_exists p l : 1 ≤ tally p l → ∃ i x, l !! i = Some x ∧ p x = true.
Proof.
  induction l as [|z l IH]; simpl; [lia |].
  destruct (p z) eqn:Hz; intros H.
  - by exists 0%nat, z.
  - destruct IH as (i & x & Hi & Hx); [lia |]. by exists (S i), x.
Qed.

End TallyFacts.

Lemma tally_returned (ws : list Pool.WorkerPC) :
  Pool.tally Pool.returned ws = Z.of_nat (length ws) - Pool.tally Pool.active ws.
Proof.
  induction ws as [|w ws IH]; [done |].
  cbn [Pool.tally length]. rewrite IH. unfold Pool.returned. destruct (Pool.active w); simpl; lia.
Qed.

Lemma tally_busy_active (ws : list Pool.WorkerPC) :
  Pool.tally Pool.busy ws ≤ Pool.tally Pool.active ws.
Proof. induction ws as [|[] ws IH]; simpl; lia. Qed.

Lemma workers_weight_insert (ws : list Pool.WorkerPC) i x y :
  ws !! i = Some x →
  Pool.workers_weight (<[i:=y]> ws) =
    Pool.workers_weight ws - Pool.worker_weight x + Pool.worker_weight y.
Proof.
  revert i. induction ws as [|z ws IH]; intros [|i] Hi; simplify_eq/=.
  - lia.
  - rewrite (IH i Hi). lia.
Qed.

Lemma workers_weight_nonneg (ws : list Pool.WorkerPC) : 0 ≤ Pool.workers_weight ws.
Proof. induction ws as [|[] ws IH]; simpl; lia. Qed.

Lemma workers_weight_app (ws1 ws2 : list Pool.WorkerPC) :
  Pool.workers_weight (ws1 ++ ws2) = Pool.workers_weight ws1 + Pool.workers_weight ws2.
Proof. induction ws1 as [|w ws1 IH]; simpl; [done | rewrite IH; lia]. Qed.

Lemma all_returned (ws : list Pool.WorkerPC) :
  Pool.tally Pool.active ws = 0 → ∀ i w, ws !! i = Some w → w = Pool.WReturned.
Proof.
  intros H0 i w Hi. pose proof (tally_none _ _ H0 i w Hi). by destruct w.
Qed.

Section PoolFacts.
Import Startup Dnsmessage Executor Pool Scenario.

Variable rt : Runtime.
Variable codec : Codec.
Variable cfg : Config.

Abbreviation step := (Pool.step codec cfg).
Abbreviation exec := (Pool.exec rt codec cfg).
Abbreviation init := (Pool.init rt cfg).
Abbreviation N := (concurrency cfg).
Abbreviation L := (queries cfg).
Abbreviation structural := (Pool.structural cfg).
Abbreviation limited := (Pool.limited cfg).
Abbreviation remaining := (Pool.remaining cfg).
Abbreviation local_weight := (Pool.local_weight cfg).

(** Turn the boolean tests of the program into propositions. *)
Ltac bools :=
  repeat match goal with
  | H : (_ || _) = true |- _ => apply orb_true_iff in H
  | H : (_ || _) = false |- _ => apply orb_false_iff in H as [? ?]
  | H : (_ && _) = true |- _ => apply andb_true_iff in H as [? ?]
  | H : (_ && _) = false |- _ => apply andb_false_iff in H
  | H : negb _ = true |- _ => apply negb_true_iff in H
  | H : negb _ = false |- _ => apply negb_false_iff in H
  | H : (_ =? _) = true |- _ => apply Z.eqb_eq in H
  | H : (_ =? _) = false |- _ => apply Z.eqb_neq in H
  | H : (_ <? _) = true |- _ => apply Z.ltb_lt in H
  | H : (_ <? _) = false |- _ => apply Z.ltb_ge in H
  end.

(** Use what is known about the program points in the goal. *)
Ltac pcs :=
  repeat match goal with
  | H : coordinator ?s = _ |- context [coordinator ?s] => rewrite H
  | H : closer ?s = _ |- context [closer ?s] => rewrite H
  | H : producer ?s = _ |- context [producer ?s] => rewrite H
  | H : aggregator ?s = _ |- context [aggregator ?s] => rewrite H
  | H : results ?s = _ |- context [results ?s] => rewrite H
  end; simpl.

(** ... and in the hypotheses. *)
Ltac pcs_in_hyps :=
  repeat match goal with
  | H : coordinator ?s = _, H' : context [coordinator ?s] |- _ => rewrite H in H'
  | H : closer ?s = _, H' : context [closer ?s] |- _ => rewrite H in H'
  | H : producer ?s = _, H' : context [producer ?s] |- _ => rewrite H in H'
  | H : aggregator ?s = _, H' : context [aggregator ?s] |- _ => rewrite H in H'
  | H : results ?s = _, H' : context [results ?s] |- _ => rewrite H in H'
  | H : resultsClosed ?s = _, H' : context [resultsClosed ?s] |- _ => rewrite H in H'
  | H : jobsClosed ?s = _, H' : context [jobsClosed ?s] |- _ => rewrite H in H'
  | H : cancelled ?s = _, H' : context [cancelled ?s] |- _ => rewrite H in H'
  | H : doneClosed ?s = _, H' : context [doneClosed ?s] |- _ => rewrite H in H'
  end; simpl in *.

(** What [main] has not started yet is at its [NotStarted] point. *)
Ltac not_started :=
  repeat match goal with
  | H : ?a = _ ↔ false = false |- _ =>
      let E := fresh "E" in pose proof (proj2 H eq_refl) as E; clear H; rewrite ?E in *
  end; simpl in *.

(** Split [step l s = Some s'] into the cases of [step]. *)
Ltac step_inv H :=
  unfold Pool.step, worker_return in H;
  repeat (case_match; simplify_eq/=; try done).

(** What [make] does with the capacity of [results]. *)
Lemma makechan_granted n :
  makechan rt n = None ↔ 0 ≤ n ≤ Z.of_N (chanRange rt) ∧ n ≤ Z.of_N (chanMemory rt).
Proof.
  unfold makechan.
  destruct (n <? 0) eqn:E1, (Z.of_N (chanRange rt) <? n) eqn:E2,
           (Z.of_N (chanMemory rt) <? n) eqn:E3; simpl; bools; split; try done; lia.
Qed.

Lemma makechan_refused n f :
  makechan rt n = Some f →
  (f = MakeChanSize ∧ (n < 0 ∨ Z.of_N (chanRange rt) < n)) ∨
  (f = OutOfMemory ∧ 0 ≤ n ≤ Z.of_N (chanRange rt) ∧ Z.of_N (chanMemory rt) < n).
Proof.
  unfold makechan.
  destruct (n <? 0) eqn:E1, (Z.of_N (chanRange rt) <? n) eqn:E2,
           (Z.of_N (chanMemory rt) <? n) eqn:E3; simpl; bools; intros [= <-];
    first [left; split; [done | lia] | right; split; [done | lia]].
Qed.

Lemma makechan_unbuffered : makechan rt 0 = None.
Proof. apply makechan_granted. lia. Qed.

Lemma makechan_negative n : n < 0 → makechan rt n = Some MakeChanSize.
Proof.
  intros Hn. unfold makechan. by replace (n <? 0) with true by (symmetry; by apply Z.ltb_lt).
Qed.

Lemma structural_init : structural init.
Proof.
  constructor; simpl; try done; try lia.
  all: intros Hp; by destruct (makechan_refused _ _ Hp) as [[? _] | [? _]].
Qed.

(** Bring the tallies over an updated worker list back to the old list. *)
Ltac tally_step :=
  repeat match goal with
  | H : ?ws !! ?i = Some ?x |- context [tally ?p (<[?i:=_]> ?ws)] =>
      rewrite (tally_insert p ws i x _ H)
  | H : ?ws !! ?i = Some ?x |- _ =>
      lazymatch goal with
      | _ : 1 ≤ tally active ws |- _ => fail
      | _ => assert (1 ≤ tally active ws) by (by apply (tally_lookup active ws i x H))
      end
  end; simpl.

Lemma structural_step l s s' : structural s → step l s = Some s' → structural s'.
Proof.
  intros Hst Hstep. step_inv Hstep.
  all: destruct Hst
         as [Hsp Hw Hcs Hps Has Hwg Hcl Hres Hdone Hagg Hjobs Hprod Hmain Hcap Hchan Hneg].
  all: pcs_in_hyps; not_started; bools.
  all: constructor; simpl; try done.
  all: rewrite ?length_insert, ?length_app, ?tally_app; tally_step; pcs.
  all: try (intuition (try congruence); lia).
  all: try (destruct (closer s) eqn:?; simpl in *; intuition (try congruence); lia).
Qed.

Lemma exec_structural tr s : exec tr s → structural s.
Proof. induction 1; eauto using structural_init, structural_step. Qed.

Lemma accounted_init : accounted [] init.
Proof.
  constructor; simpl; try done. by exists 0.
Qed.

Lemma accounted_step tr l s s' :
  structural s → accounted tr s → step l s = Some s' → accounted (l :: tr) s'.
Proof.
  intros Hst [Hjobs Hres Hcnt Hq (k & Hk & Hs)] Hstep.
  pose proof (st_pstart _ _ Hst) as Hps.
  unfold produced, pushed, aggregated, counted in *.
  step_inv Hstep. all: not_started.
  all: constructor; unfold produced, pushed, aggregated, counted; simpl.
  all: rewrite ?length_app, ?tally_app; tally_step; simpl.
  all: try (match goal with H : results _ = _ |- _ => rewrite H in *; simpl in * end).
  all: try lia.
  all: try (exists k; split; [lia | done]).
  all: rewrite ?Z.add_0_l; try done.
  all: try (rewrite Hq, wrap64_add; f_equal; lia).
  all: try match goal with
       | H : producer _ = _ |- _ => rewrite H in *; simpl in *; lia
       end.
  all: try (exists (k + 1); split; [lia |]; by rewrite Hs, wrap64_add).
Qed.

Lemma exec_accounted tr s : exec tr s → accounted tr s.
Proof.
  induction 1; eauto using accounted_init, accounted_step, exec_structural.
Qed.

(** *** Runs without Ctrl-C *)

Lemma uninterrupted_cons l tr :
  uninterrupted (l :: tr) ↔ is_interrupt l = false ∧ uninterrupted tr.
Proof.
  unfold uninterrupted. simpl. pose proof (tally_nonneg is_interrupt tr).
  destruct (is_interrupt l); split; intros; try split; try done; lia.
Qed.

Lemma quiet_init : quiet init.
Proof. constructor; simpl; try done; lia. Qed.

Lemma quiet_step l s s' :
  quiet s → is_interrupt l = false → step l s = Some s' → quiet s'.
Proof.
  intros [Hsig Hcancel Hws] Hl Hstep. step_inv Hstep.
  all: constructor; simpl; try done; rewrite ?tally_app; tally_step; try congruence.
  all: intros; try (specialize (Hws ltac:(lia))); congruence.
Qed.

Lemma exec_quiet tr s : exec tr s → uninterrupted tr → quiet s.
Proof.
  induction 1 as [| tr s l s' Hexec IH Hstep]; [intros; apply quiet_init |].
  intros [Hl Htr]%uninterrupted_cons. eauto using quiet_step.
Qed.

(** *** Runs with a query limit *)

Lemma limited_init : limited [] init.
Proof. constructor; simpl; try done. unfold counted. simpl. lia. Qed.

Lemma limited_step tr l s s' :
  L ≠ -1 → L ≤ maxInt64 →
  accounted tr s → limited tr s → step l s = Some s' → limited (l :: tr) s'.
Proof.
  intros HL1 HL2 Hacc [Hle Hlt Hclose Hret] Hstep.
  assert (queryCount s = counted tr) as Hq.
  { rewrite (ac_query _ _ Hacc). apply wrap64_small.
    pose proof (tally_nonneg is_count tr).
    unfold in_int64, minInt64, maxInt64, counted in *. lia. }
  unfold counted in *. step_inv Hstep.
  all: constructor; unfold counted; simpl; rewrite ?Z.add_0_l; try done.
  all: bools; intros; try lia.
  all: try congruence.
  all: try (match goal with H : producer _ = _ |- _ => rewrite H in *; simpl in * end).
  all: try specialize (Hlt eq_refl); try specialize (Hclose eq_refl); lia.
Qed.

Lemma exec_limited tr s : L ≠ -1 → L ≤ maxInt64 → exec tr s → limited tr s.
Proof.
  intros HL1 HL2. induction 1; eauto using limited_init, limited_step, exec_accounted.
Qed.

(** [run] and [exec] describe the same runs. *)
Lemma run_exec_from tr s ls s' :
  exec tr s → run codec cfg ls s = Some s' → exec (rev ls ++ tr) s'.
Proof.
  revert tr s. induction ls as [|l ls IH]; intros tr s Hexec Hrun; simpl in *.
  - by simplify_eq.
  - destruct (step l s) as [s1 |] eqn:Hstep; [| done].
    rewrite <- app_assoc. simpl. eapply IH; [| done]. by econstructor.
Qed.

Lemma run_exec ls s : run codec cfg ls init = Some s → exec (rev ls) s.
Proof.
  intros Hrun. rewrite <- (app_nil_r (rev ls)).
  eapply run_exec_from; [constructor | done].
Qed.

(** No worker ever executes line 88 on a closed channel. *)
Lemma no_send_on_closed tr s : exec tr s → ∀ i, WorkerSendClosed i ∉ tr.
Proof.
  induction 1 as [| tr s l s' Hexec IH Hstep]; intros i; [apply not_elem_of_nil |].
  apply not_elem_of_cons. split; [| apply IH].
  intros <-. pose proof (st_chan _ _ (exec_structural _ _ (exec_step _ _ _ _ _ _ _ Hexec Hstep))).
  step_inv Hstep.
Qed.

(** C5.  In every run: once the closer is past [wg.Wait()], and so
    whenever [results] is closed, [main] has started all [concurrency]
    workers and every one of them has returned; no worker ever sends on the
    closed [results] channel, and no run ends in the panic of such a send. *)
Theorem C5_results_closed_after_workers_return tr s :
  exec tr s →
  (past_wait (closer s) = true →
     Z.of_nat (length (workers s)) = Z.max 0 N ∧
     ∀ i w, workers s !! i = Some w → w = WReturned) ∧
  (resultsClosed s = true →
     closer s = CReturned ∧ Z.of_nat (length (workers s)) = Z.max 0 N ∧
     ∀ i w, workers s !! i = Some w → w = WReturned) ∧
  (∀ i, WorkerSendClosed i ∉ tr) ∧
  panicked s ≠ Some SendOnClosedChannel.
Proof.
  intros Hexec. pose proof (no_send_on_closed tr s Hexec) as Hnever.
  destruct (exec_structural _ _ Hexec)
    as [_ Hw Hcs _ _ _ Hcl Hres _ _ _ _ _ _ Hchan _].
  assert (past_wait (closer s) = true →
          Z.of_nat (length (workers s)) = Z.max 0 N ∧
          ∀ i w, workers s !! i = Some w → w = WReturned) as Hpast.
  { intros Hc. split; [| by apply all_returned, Hcl].
    rewrite Hw. destruct (coordinator s); try done.
    all: destruct Hcs as [_ Hcs]; rewrite Hcs in Hc; done. }
  split; [done |]. split; [| done].
  intros Hc. apply Hres in Hc. split; [done |]. apply Hpast. by rewrite Hc.
Qed.

(** *** A limited run that nobody interrupts *)

Lemma started_all s :
  structural s → aggregator_started (coordinator s) = true →
  Z.of_nat (length (workers s)) = Z.max 0 N.
Proof.
  intros Hst Hm. rewrite (st_workers _ _ Hst). by destruct (coordinator s).
Qed.

Lemma completed_run tr s :
  1 ≤ N → 0 ≤ L ≤ maxInt64 →
  exec tr s → uninterrupted tr → doneClosed s = true →
  produced tr = L ∧ pushed tr = L ∧ aggregated tr = L ∧ queryCount s = L.
Proof.
  intros HN HL Hexec Htr Hdone.
  pose proof (exec_structural _ _ Hexec) as Hst.
  destruct (exec_accounted _ _ Hexec) as [Ajobs Ares Acnt Aq _].
  destruct (exec_quiet _ _ Hexec Htr) as [_ Qc Qw].
  destruct (exec_limited tr s ltac:(lia) ltac:(lia) Hexec) as [Lle _ _ Lret].
  apply (st_done _ _ Hst) in Hdone. destruct (st_agg _ _ Hst Hdone) as [Hrc Hrs].
  apply (st_results _ _ Hst) in Hrc.
  assert (tally active (workers s) = 0) as Hact.
  { apply (st_closer _ _ Hst). by rewrite Hrc. }
  assert (Z.of_nat (length (workers s)) = Z.max 0 N) as Hw.
  { apply started_all; [done |].
    destruct (aggregator_started (coordinator s)) eqn:E; [done |].
    apply (st_astart _ _ Hst) in E. congruence. }
  assert (producer s = PReturned) as Hp.
  { apply (st_jobs _ _ Hst), Qw. rewrite tally_returned, Hact. lia. }
  specialize (Lret Qc Hp).
  pose proof (tally_busy_active (workers s)). pose proof (tally_nonneg busy (workers s)).
  rewrite Hp in Acnt. rewrite Hrs in Ares. simpl in *.
  assert (counted tr = L) as Hc by lia.
  repeat split; try lia.
  rewrite Aq, Hc. apply wrap64_small. unfold in_int64, minInt64, maxInt64 in *. lia.
Qed.


(** In such a run the report cannot show more successes than queries. *)
Lemma finalSuccessCount_limit tr s :
  1 ≤ N → 0 ≤ L ≤ maxInt64 →
  exec tr s → uninterrupted tr →
  ∀ fs, finalSuccessCount (coordinator s) = Some fs → 0 ≤ fs ≤ L.
Proof.
  intros HN HL. induction 1 as [| tr s l s' Hexec IH Hstep]; [done |].
  intros [Hl Htr]%uninterrupted_cons fs. specialize (IH Htr).
  pose proof (exec_structural _ _ Hexec) as Hst.
  assert (coordinator s = MLoad → 0 ≤ successCount s ≤ L) as Hload.
  { intros Hm.
    destruct (completed_run tr s) as (_ & _ & Hagg & _); try done.
    { apply (st_main _ _ Hst). by rewrite Hm. }
    destruct (ac_success _ _ (exec_accounted _ _ Hexec)) as (k & Hk & ->).
    rewrite wrap64_small; [lia |]. unfold in_int64, minInt64, maxInt64 in *. lia. }
  clear Hexec Htr Hst. step_inv Hstep; try (by apply IH).
  - intros [= <-]. by apply Hload.
  - intros [= <-]. apply IH. unfold Report.statistics in *.
    destruct (div64 _ _); simplify_eq/=; done.
  - match goal with H : coordinator _ = _ |- _ => rewrite H end. apply IH.
Qed.

(** *** The program never deadlocks

    As long as [main] has not returned and nothing has panicked, some
    goroutine can move: [main] itself, else the aggregator, else the closer,
    else a worker, else the producer. *)
Lemma progress tr s :
  exec tr s → running s = true →
  ∃ l s', is_program l = true ∧ step l s = Some s'.
Proof.
  intros Hexec Hrun.
  pose proof (exec_structural _ _ Hexec) as Hst.
  assert (∀ l, is_program l = true → is_Some (step l s) →
               ∃ l s', is_program l = true ∧ step l s = Some s') as Hgo.
  { intros l Hl [s' Hs']. eauto. }
  (* [main] can move unless it waits for [done] *)
  assert (doneClosed s = false →
          (coordinator s = MSelect ∨ coordinator s = MDrain) ∨
          ∃ l s', is_program l = true ∧ step l s = Some s') as Hmain.
  { intros Hd. destruct (coordinator s) as [i | | | | | | | | fq fs el | st] eqn:Hm;
      [right .. | left; by left | left; by right | right | right | ].
    - apply (Hgo MainWorkerLoop); [done |].
      unfold Pool.step. rewrite Hrun, Hm. simpl. destruct (i <? N); eauto.
    - apply (Hgo MainSpawnCloser); [done |]. unfold Pool.step. rewrite Hrun, Hm. eauto.
    - apply (Hgo MainNotify); [done |]. unfold Pool.step. rewrite Hrun, Hm. eauto.
    - apply (Hgo MainSpawnProducer); [done |]. unfold Pool.step. rewrite Hrun, Hm. eauto.
    - apply (Hgo MainSpawnAggregator); [done |]. unfold Pool.step. rewrite Hrun, Hm. eauto.
    - apply (Hgo (MainLoad 0)); [done |]. unfold Pool.step. rewrite Hrun, Hm. eauto.
    - apply (Hgo MainReport); [done |]. unfold Pool.step. rewrite Hrun, Hm. simpl.
      destruct (Report.statistics _ _ _ _); eauto.
    - unfold running in Hrun. rewrite Hm in Hrun. by destruct (panicked s). }
  destruct (doneClosed s) eqn:Hd.
  { destruct (coordinator s) as [i | | | | | | | | fq fs el | st] eqn:Hm.
    all: try (pose proof (st_astart _ _ Hst) as [_ Has]; rewrite Hm in Has;
              specialize (Has eq_refl);
              pose proof (proj1 (st_done _ _ Hst) Hd); congruence).
    - apply (Hgo MainCompleted); [done |]. unfold Pool.step. rewrite Hrun, Hm, Hd. eauto.
    - apply (Hgo MainDrained); [done |]. unfold Pool.step. rewrite Hrun, Hm, Hd. eauto.
    - apply (Hgo (MainLoad 0)); [done |]. unfold Pool.step. rewrite Hrun, Hm. eauto.
    - apply (Hgo MainReport); [done |]. unfold Pool.step. rewrite Hrun, Hm. simpl.
      destruct (Report.statistics _ _ _ _); eauto.
    - unfold running in Hrun. rewrite Hm in Hrun. by destruct (panicked s). }
  destruct (Hmain eq_refl) as [Hm | ?]; [| done]. clear Hmain.
  (* every goroutine has been started *)
  assert (aggregator_started (coordinator s) = true ∧
          producer_started (coordinator s) = true ∧
          closer_started (coordinator s) = true) as (Hsa & Hsp & Hsc)
    by (by destruct Hm as [-> | ->]).
  assert (Z.of_nat (length (workers s)) = Z.max 0 N) as Hlen by (by apply started_all).
  (* the aggregator *)
  assert (aggregator s = ARange) as Ha.
  { destruct (aggregator s) eqn:Ha; [| done |].
    - apply (st_astart _ _ Hst) in Ha. congruence.
    - apply (st_done _ _ Hst) in Ha. congruence. }
  destruct (results s) as [| r rest] eqn:Hrs.
  2: { apply (Hgo AggregatorRecv); [done |]. unfold Pool.step. rewrite Hrun, Ha, Hrs. eauto. }
  destruct (resultsClosed s) eqn:Hrc.
  { apply (Hgo AggregatorEnd); [done |]. unfold Pool.step. rewrite Hrun, Ha, Hrs, Hrc. eauto. }
  (* the closer *)
  destruct (closer s) eqn:Hc.
  { apply (st_cstart _ _ Hst) in Hc. congruence. }
  2: { apply (Hgo CloserClose); [done |]. unfold Pool.step. rewrite Hrun, Hc. eauto. }
  2: { apply (st_results _ _ Hst) in Hc. congruence. }
  destruct (decide (wg s = 0)) as [Hz | Hnz].
  { apply (Hgo CloserWait); [done |]. unfold Pool.step. rewrite Hrun, Hc, Hz. eauto. }
  (* a worker *)
  rewrite (st_wg _ _ Hst) in Hnz.
  destruct (tally_exists active (workers s)) as (i & w & Hi & Hw);
    [pose proof (tally_nonneg active (workers s)); lia |].
  assert (1 ≤ N) as HN by (apply lookup_lt_Some in Hi; lia).
  destruct w as [| | r |]; [| | | done].
  2: { apply (Hgo (WorkerQuery i (answered 0))); [done |].
       unfold Pool.step. rewrite Hrun, Hi. simpl.
       destruct (performDNSQuery _ _ _ _ _) as [ev [r | msg]]; eauto. }
  2: { apply (Hgo (WorkerSend i)); [done |].
       unfold Pool.step. rewrite Hrun, Hi, Hrc, Hrs. simpl.
       destruct (Z.of_nat 0 <? N) eqn:E; [eauto |].
       apply Z.ltb_ge in E. simpl in E. lia. }
  destruct (jobsClosed s) eqn:Hj.
  { apply (Hgo (WorkerNoJobs i)); [done |]. unfold Pool.step. rewrite Hrun, Hi, Hj. eauto. }
  destruct (cancelled s) eqn:Hcan.
  { apply (Hgo (WorkerCancelled i)); [done |]. unfold Pool.step. rewrite Hrun, Hi, Hcan. eauto. }
  (* the producer *)
  destruct (producer s) eqn:Hp.
  - apply (st_pstart _ _ Hst) in Hp. congruence.
  - apply (Hgo ProducerLoop); [done |]. unfold Pool.step. rewrite Hrun, Hp. simpl.
    destruct ((L =? -1) || (queryCount s <? L)); eauto.
  - apply (Hgo ProducerSelect); [done |]. unfold Pool.step. rewrite Hrun, Hp, Hcan. eauto.
  - apply (Hgo (Handoff i)); [done |]. unfold Pool.step. rewrite Hrun, Hp, Hi, Hj. eauto.
  - apply (Hgo ProducerCount); [done |]. unfold Pool.step. rewrite Hrun, Hp. eauto.
  - apply (Hgo ProducerClose); [done |]. unfold Pool.step. rewrite Hrun, Hp. eauto.
  - destruct (st_prod _ _ Hst Hp); congruence.
Qed.

Lemma local_weight_nonneg s : 0 ≤ local_weight s.
Proof.
  unfold Pool.local_weight. pose proof (workers_weight_nonneg (workers s)).
  destruct (producer s), (closer s), (aggregator s), (coordinator s), (panicked s);
    simpl; lia.
Qed.

Lemma local_weight_init : makechan rt N = None → local_weight init = 2 * N + 22.
Proof.
  intros HN. unfold Pool.local_weight. simpl. rewrite HN.
  apply makechan_granted in HN. lia.
Qed.

Ltac weight_step :=
  repeat match goal with
  | H : ?ws !! ?i = Some ?x |- context [workers_weight (<[?i:=_]> ?ws)] =>
      rewrite (workers_weight_insert ws i x _ H)
  end; simpl.

Lemma remaining_step l s s' :
  structural s →
  (producer s = PCount → add64 (queryCount s) 1 = queryCount s + 1) →
  is_program l = true → step l s = Some s' → remaining s' + 1 ≤ remaining s.
Proof.
  intros Hst Hcount Hl Hstep. unfold Pool.remaining, Pool.local_weight.
  pose proof (st_cstart _ _ Hst) as Hcs. pose proof (st_pstart _ _ Hst) as Hps.
  pose proof (st_astart _ _ Hst) as Has. clear Hst.
  assert (panicked s = None) as Hp.
  { unfold Pool.step in Hstep. destruct (running s) eqn:Hrun; [| done].
    unfold running in Hrun. by destruct (panicked s). }
  step_inv Hstep.
  all: rewrite ?length_app, ?workers_weight_app; weight_step; rewrite ?Hp; simpl.
  all: try (match goal with H : producer _ = _ |- _ => rewrite H in Hcount end).
  all: not_started; pcs; bools.
  all: try (rewrite Hcount by done).
  all: lia.
Qed.

(** With a limit, [queryCount] is the number of jobs counted so far and
    never overflows. *)
Lemma queryCount_limited tr s :
  L ≠ -1 → L ≤ maxInt64 → exec tr s →
  queryCount s = counted tr ∧ 0 ≤ counted tr ≤ Z.max 0 L.
Proof.
  intros HL1 HL2 Hexec.
  pose proof (li_le _ _ _ (exec_limited tr s HL1 HL2 Hexec)).
  pose proof (tally_nonneg is_count tr). unfold counted in *.
  split; [| lia]. rewrite (ac_query _ _ (exec_accounted _ _ Hexec)).
  apply wrap64_small. unfold in_int64, minInt64, maxInt64, counted in *. lia.
Qed.

Lemma interrupt_keeps_remaining l s s' :
  is_program l = false → step l s = Some s' → remaining s' = remaining s.
Proof.
  intros Hl Hstep. destruct l; try done. unfold Pool.step in Hstep.
  destruct (negb (running s)); [done |].
  destruct (listening (coordinator s)); by simplify_eq.
Qed.



Lemma panic_in_report tr s :
  (String.length (domain cfg) < nameLen)%nat ∨ N = 0 → makechan rt N = None →
  exec tr s → panicked s ≠ None →
  panicked s = Some divide_by_zero ∧ ∃ fs el, coordinator s = MStats 0 fs el.
Proof.
  intros Hfit HN. induction 1 as [| tr s l s' Hexec IH Hstep].
  - simpl. by rewrite HN.
  - intros Hp. pose proof (exec_structural _ _ (exec_step _ _ _ _ _ _ _ Hexec Hstep)) as Hst'.
    pose proof (exec_structural _ _ Hexec) as Hst.
    assert (panicked s = None) as Hnone.
    { unfold Pool.step in Hstep. destruct (running s) eqn:Hrun; [| done].
      unfold running in Hrun. by destruct (panicked s). }
    clear IH. pose proof (st_chan _ _ Hst') as Hchan. pose proof (st_neg _ _ Hst') as Hneg.
    clear Hst'. step_inv Hstep; try congruence.
    + (* [performDNSQuery] panicked *)
      exfalso. destruct Hfit as [Hfit | Hzero].
      * match goal with
        | H : performDNSQuery _ ?w _ _ _ = _ |- _ =>
            pose proof (performDNSQuery_returns codec (dnsServer cfg) (domain cfg)
                          (recordType cfg) w Hfit) as Hret; rewrite H in Hret
        end. done.
      * match goal with H : workers s !! _ = Some _ |- _ => apply lookup_lt_Some in H end.
        pose proof (st_workers _ _ Hst). pose proof (st_spawn _ _ Hst). lia.
    + (* the report panicked *)
      unfold Report.statistics, div64 in *.
      match goal with H : context [?q =? 0] |- _ => destruct (q =? 0) eqn:E end;
        simplify_eq/=. bools. subst. split; [done | eauto].
Qed.

(** *** Every run goes on until the report

    [ok] singles out the runs of interest (all of them, or the
    uninterrupted ones); [floor] is a lower bound of [remaining] on them. *)
Lemma eventually_reports (ok : list Label → Prop) (floor : Z) :
  (∀ l tr, ok tr → is_program l = true → ok (l :: tr)) →
  (∀ tr s, exec tr s → ok tr →
     (producer s = PCount → add64 (queryCount s) 1 = queryCount s + 1) ∧
     floor ≤ remaining s) →
  (String.length (domain cfg) < nameLen)%nat ∨ N = 0 → makechan rt N = None →
  ∀ tr s, exec tr s → ok tr →
    ∃ tr' s', exec (tr' ++ tr) s' ∧ ok (tr' ++ tr) ∧
              is_Some (finalQueryCount (coordinator s')).
Proof.
  intros Hok Hinv Hfit HN tr s Hexec Htr.
  remember (Z.to_nat (remaining s - floor)) as n eqn:Hn.
  assert (remaining s - floor ≤ Z.of_nat n) as Hle by lia. clear Hn.
  revert tr s Hexec Htr Hle. induction n as [|n IH]; intros tr s Hexec Htr Hle.
  all: destruct (finalQueryCount (coordinator s)) as [fq |] eqn:Hfq;
         [by exists [], s; eauto |].
  all: assert (running s = true) as Hrun
         by (unfold running; destruct (panicked s) eqn:Hp;
             [ destruct (panic_in_report tr s Hfit HN Hexec) as (_ & fs & el & Hm);
               [congruence | by rewrite Hm in Hfq]
             | by destruct (coordinator s) ]).
  all: destruct (progress tr s Hexec Hrun) as (l & s' & Hl & Hstep).
  all: destruct (Hinv tr s Hexec Htr) as [Hcount Hfloor].
  all: pose proof (remaining_step l s s' (exec_structural _ _ Hexec) Hcount Hl Hstep) as Hdec.
  all: pose proof (exec_step _ _ _ _ _ _ _ Hexec Hstep) as Hexec'.
  all: destruct (Hinv (l :: tr) s' Hexec' (Hok l tr Htr Hl)) as [_ Hfloor'].
  - lia.
  - destruct (IH (l :: tr) s' Hexec' (Hok l tr Htr Hl)) as (tr' & s2 & H1 & H2 & H3); [lia |].
    exists (tr' ++ [l]), s2. rewrite <- app_assoc. simpl. eauto.
Qed.

(** A run that the program cannot continue has read [finalQueryCount]. *)
Lemma halted_reported tr s :
  (String.length (domain cfg) < nameLen)%nat ∨ N = 0 → makechan rt N = None →
  exec tr s → (∀ l, is_program l = true → step l s = None) →
  is_Some (finalQueryCount (coordinator s)).
Proof.
  intros Hfit HN Hexec Hhalt.
  destruct (running s) eqn:Hrun.
  - destruct (progress tr s Hexec Hrun) as (l & s' & Hl & Hstep).
    rewrite (Hhalt l Hl) in Hstep. done.
  - unfold running in Hrun. destruct (panicked s) eqn:Hp.
    + destruct (panic_in_report tr s Hfit HN Hexec) as (_ & fs & el & Hm); [congruence |].
      rewrite Hm. by eexists.
    + by destruct (coordinator s).
Qed.

(** The results aggregated never outnumber the jobs handed over, and the
    jobs handed over are at most one ahead of the jobs counted. *)
Lemma aggregated_le_produced tr s :
  exec tr s →
  aggregated tr ≤ pushed tr ∧ pushed tr ≤ produced tr ∧
  counted tr ≤ produced tr ≤ counted tr + 1 ∧
  queryCount s = wrap64 (counted tr) ∧
  ∃ k, 0 ≤ k ≤ aggregated tr ∧ successCount s = wrap64 k.
Proof.
  intros Hexec. destruct (exec_accounted _ _ Hexec) as [Hj Hr Hc Hq Hs].
  pose proof (tally_nonneg busy (workers s)).
  unfold uncounted in Hc. repeat split; try done; try lia.
  all: destruct (producer s); lia.
Qed.



(** *** A pool without workers *)

Lemma no_workers_nil tr s : N = 0 → exec tr s → workers s = [].
Proof.
  intros HN Hexec. pose proof (exec_structural _ _ Hexec) as Hst.
  pose proof (st_workers _ _ Hst). pose proof (st_spawn _ _ Hst).
  apply nil_length_inv. lia.
Qed.

Lemma no_workers_idle tr s :
  N = 0 → exec tr s →
  workers s = [] ∧ produced tr = 0 ∧ counted tr = 0 ∧ producer s ≠ PCount.
Proof.
  intros HN Hexec. split; [by eapply no_workers_nil |].
  induction Hexec as [| tr s l s' Hexec IH Hstep]; [done |].
  pose proof (no_workers_nil tr s HN Hexec) as Hws.
  destruct IH as (Hp & Hc & Hpc). unfold produced, counted in *.
  step_inv Hstep; simpl; rewrite ?Hp, ?Hc; try done.
  all: try (match goal with H : workers _ !! _ = Some _ |- _ => by rewrite Hws in H end).
  all: match goal with H : producer _ = _ |- _ => by rewrite H end.
Qed.

(** C10.  With [concurrency = 0] and any query limit: no job is ever
    handed over, no result is ever pushed or aggregated, and the counters
    stay at zero; the closer does not have to wait ([wg] is zero from the
    start); when [main] gets past line 211, [results] and [done] are closed,
    and the [finalQueryCount] it reads is 0; the program itself performs at
    most 22 actions, can only come to a halt after reading
    [finalQueryCount = 0], and every run can be continued to that point. *)
Theorem C10_pool_without_workers tr s :
  N = 0 → exec tr s →
  (produced tr = 0 ∧ pushed tr = 0 ∧ aggregated tr = 0 ∧
   queryCount s = 0 ∧ successCount s = 0 ∧ results s = [] ∧ wg s = 0) ∧
  (reporting (coordinator s) = true → resultsClosed s = true ∧ doneClosed s = true) ∧
  (∀ fq, finalQueryCount (coordinator s) = Some fq → fq = 0) ∧
  program_steps tr ≤ 22 ∧
  ((∀ l, is_program l = true → step l s = None) →
   finalQueryCount (coordinator s) = Some 0) ∧
  (∃ tr' s', exec (tr' ++ tr) s' ∧ finalQueryCount (coordinator s') = Some 0 ∧
             resultsClosed s' = true ∧ doneClosed s' = true ∧
             aggregated (tr' ++ tr) = 0).
Proof.
  intros HN Hexec.
  assert (∀ tr s, exec tr s →
            produced tr = 0 ∧ pushed tr = 0 ∧ aggregated tr = 0 ∧
            queryCount s = 0 ∧ successCount s = 0 ∧ results s = [] ∧ wg s = 0) as Hzero.
  { clear tr s Hexec. intros tr s Hexec.
    destruct (no_workers_idle tr s HN Hexec) as (Hws & Hp & Hc & _).
    destruct (exec_accounted _ _ Hexec) as [Ajobs Ares _ Aq (k & Hk & As)].
    pose proof (st_wg _ _ (exec_structural _ _ Hexec)) as Hwg.
    rewrite Hws in *. simpl in *.
    pose proof (tally_nonneg is_recv tr). unfold aggregated, pushed in *.
    assert (k = 0) by lia. subst k.
    repeat split; try lia; try (by rewrite ?Aq, ?As, ?Hc).
    apply nil_length_inv. lia. }
  assert (∀ tr s, exec tr s →
            reporting (coordinator s) = true →
            resultsClosed s = true ∧ doneClosed s = true) as Hclosed.
  { clear tr s Hexec. intros tr s Hexec Hrep.
    pose proof (exec_structural _ _ Hexec) as Hst.
    pose proof (st_main _ _ Hst Hrep) as Hd. split; [| done].
    by apply (st_agg _ _ Hst), (st_done _ _ Hst). }
  assert (∀ tr s, exec tr s →
            ∀ fq, finalQueryCount (coordinator s) = Some fq → fq = 0) as Hfq.
  { clear tr s Hexec. induction 1 as [| tr s l s' Hexec IH Hstep]; [done |].
    destruct (Hzero _ _ Hexec) as (_ & _ & _ & Hq & _). intros fq.
    clear Hexec. step_inv Hstep; try (by apply IH).
    - intros [= <-]. done.
    - intros [= <-]. apply IH. unfold Report.statistics in *.
      destruct (div64 _ _); simplify_eq/=; done.
    - match goal with H : coordinator _ = _ |- _ => rewrite H end. apply IH. }
  split; [by apply Hzero |]. split; [by eapply Hclosed |].
  split; [by apply (Hfq tr s) |].
  assert (∀ tr s, exec tr s →
            program_steps tr + remaining s ≤ remaining init) as Hrem.
  { clear tr s Hexec. induction 1 as [| tr s l s' Hexec IH Hstep];
      [unfold program_steps; simpl; lia |].
    unfold program_steps in *. cbn [tally].
    destruct (is_program l) eqn:Hl.
    - enough (remaining s' + 1 ≤ remaining s) by lia.
      eapply remaining_step; [by eapply exec_structural | | done..].
      intros Hp. by destruct (no_workers_idle tr s HN Hexec) as (_ & _ & _ & ?).
    - rewrite (interrupt_keeps_remaining _ _ _ Hl Hstep). lia. }
  split.
  - specialize (Hrem _ _ Hexec). destruct (Hzero _ _ Hexec) as (_ & _ & _ & Hq & _).
    unfold remaining in Hrem.
    rewrite Hq, local_weight_init in Hrem by (rewrite HN; apply makechan_unbuffered).
    simpl in Hrem. pose proof (local_weight_nonneg s). lia.
  - split.
    { intros Hhalt.
      destruct (halted_reported tr s (or_intror HN)
                  ltac:(rewrite HN; apply makechan_unbuffered) Hexec Hhalt) as [fq Hfq'].
      by rewrite (Hfq tr s Hexec fq Hfq') in Hfq'. }
    destruct (eventually_reports (λ _, True) (8 * L)) with (tr := tr) (s := s)
      as (tr' & s' & Hexec' & _ & [fq Hfq']); try done.
    + intros tr0 s0 Hexec0 _. split.
      * intros Hp. by destruct (no_workers_idle tr0 s0 HN Hexec0) as (_ & _ & _ & ?).
      * destruct (Hzero _ _ Hexec0) as (_ & _ & _ & Hq & _).
        unfold remaining. rewrite Hq. pose proof (local_weight_nonneg s0). lia.
    + by right.
    + rewrite HN. apply makechan_unbuffered.
    + exists tr', s'. rewrite (Hfq _ _ Hexec' fq Hfq') in Hfq'.
      destruct (Hclosed _ _ Hexec') as [? ?]; [by destruct (coordinator s') |].
      destruct (Hzero _ _ Hexec') as (_ & _ & ? & _). done.
Qed.

(** *** Further properties of the pool

    Lines 77-91 and 147-211, in every run: with or without a limit, with
    or without Ctrl-C. *)

(** Once [done] is closed every goroutine but the producer is gone. *)
Lemma done_idle s :
  structural s → doneClosed s = true →
  tally active (workers s) = 0 ∧ results s = [] ∧ resultsClosed s = true ∧
  Z.of_nat (length (workers s)) = Z.max 0 N.
Proof.
  intros Hst Hdone.
  pose proof (proj1 (st_done _ _ Hst) Hdone) as Ha.
  destruct (st_agg _ _ Hst Ha) as [Hrc Hrs].
  pose proof (proj1 (st_results _ _ Hst) Hrc) as Hc.
  split; [apply (st_closer _ _ Hst); by rewrite Hc |]. repeat split; try done.
  apply started_all; [done |].
  destruct (aggregator_started (coordinator s)) eqn:E; [done |].
  apply (st_astart _ _ Hst) in E. congruence.
Qed.

(** When [make] does not grant the [results] channel, the process dies
    before anything is started. *)
Lemma refused_halts tr s f :
  makechan rt N = Some f → exec tr s → tr = [] ∧ s = init.
Proof.
  intros HN. induction 1 as [| tr s l s' Hexec [-> ->] Hstep]; [done |].
  exfalso. unfold Pool.step, running in Hstep. simpl in Hstep.
  by rewrite HN in Hstep.
Qed.




(** What [main] reads on lines 213-214. *)
Lemma reported_counts tr s :
  exec tr s →
  (∀ fq, finalQueryCount (coordinator s) = Some fq →
         ∃ c, fq = wrap64 c ∧ 0 ≤ c ∧ produced tr - 1 ≤ c ≤ produced tr) ∧
  (∀ fs, finalSuccessCount (coordinator s) = Some fs →
         ∃ k, fs = wrap64 k ∧ 0 ≤ k ≤ produced tr).
Proof.
  induction 1 as [| tr s l s' Hexec [IHq IHs] Hstep]; [done |].
  pose proof (exec_structural _ _ Hexec) as Hst.
  destruct (aggregated_le_produced _ _ Hexec) as (Hap & Hpp & Hcp & Hq & k & Hk & Hs).
  pose proof (tally_nonneg is_count tr) as Hc0. fold (counted tr) in Hc0.
  assert (reporting (coordinator s) = true → ∀ i, workers s !! i ≠ Some WSelect) as Hidle.
  { intros Hrep i Hi.
    destruct (done_idle s Hst (st_main _ _ Hst Hrep)) as (Hact & _).
    pose proof (tally_lookup active _ _ _ Hi eq_refl). lia. }
  clear Hexec Hst. unfold produced in *.
  step_inv Hstep; cbn [tally is_handoff]; rewrite ?Z.add_0_l.
  all: try (split; [exact IHq | exact IHs]).
  all: try match goal with
       | H : coordinator _ = _ |- _ => rewrite H in *; cbn in IHq, IHs, Hidle |- *
       end.
  all: try (split; [exact IHq | exact IHs]).
  - (* a hand-over *)
    split.
    + intros fq Hfq. exfalso. eapply Hidle; [by destruct (coordinator s) | done].
    + intros fs Hfs. destruct (IHs fs Hfs) as (k' & -> & ?). exists k'. split; [done | lia].
  - (* the counters are read *)
    split; intros ? [= <-].
    + exists (counted tr). repeat split; try done; lia.
    + exists k. split; [done | lia].
  - (* the report *)
    unfold Report.statistics in *. destruct (div64 _ _); simplify_eq/=.
    split; [exact IHq | exact IHs].
Qed.

(** X13.  The counters of the report, in every run, interrupted or not:
    [finalQueryCount] is the number of jobs handed over, or one less (the
    producer had not counted its last hand-over), as an [int64];
    [finalSuccessCount] is the [int64] of a number between 0 and the number
    of jobs handed over. *)
Theorem X13_reported_counts tr s :
  exec tr s →
  (∀ fq, finalQueryCount (coordinator s) = Some fq →
         ∃ c, fq = wrap64 c ∧ 0 ≤ c ∧ produced tr - 1 ≤ c ≤ produced tr) ∧
  (∀ fs, finalSuccessCount (coordinator s) = Some fs →
         ∃ k, fs = wrap64 k ∧ 0 ≤ k ≤ produced tr).
Proof. apply reported_counts. Qed.

(** Every way in which the process can die. *)
Lemma panic_causes tr s f :
  exec tr s → panicked s = Some f →
  (makechan rt N = Some f ∧ tr = []) ∨
  (f = Uncaught ("creating name: " +:+ errCalcLen) ∧
   (nameLen ≤ String.length (domain cfg))%nat ∧ 1 ≤ N) ∨
  (f = divide_by_zero ∧ ∃ fs el, coordinator s = MStats 0 fs el).
Proof.
  induction 1 as [| tr s l s' Hexec IH Hstep].
  - simpl. intros Hp. by left.
  - intros Hp. right.
    pose proof (exec_structural _ _ (exec_step _ _ _ _ _ _ _ Hexec Hstep)) as Hst'.
    pose proof (exec_structural _ _ Hexec) as Hst.
    assert (panicked s = None) as Hnone.
    { unfold Pool.step in Hstep. destruct (running s) eqn:Hrun; [| done].
      unfold running in Hrun. by destruct (panicked s). }
    clear IH. pose proof (st_chan _ _ Hst') as Hchan. pose proof (st_neg _ _ Hst') as Hneg.
    clear Hst'. step_inv Hstep; try congruence.
    + (* [performDNSQuery] panicked *)
      left.
      match goal with H : workers s !! _ = Some _ |- _ => apply lookup_lt_Some in H end.
      pose proof (st_workers _ _ Hst). pose proof (st_spawn _ _ Hst).
      destruct (decide (String.length (domain cfg) < nameLen)%nat) as [Hfit | Hlong].
      * match goal with
        | H : performDNSQuery _ ?w _ _ _ = _ |- _ =>
            pose proof (performDNSQuery_returns codec (dnsServer cfg) (domain cfg)
                          (recordType cfg) w Hfit) as Hret; rewrite H in Hret
        end. done.
      * match goal with
        | H : performDNSQuery _ ?w _ _ _ = _ |- _ =>
            pose proof (performDNSQuery_panics codec (dnsServer cfg) (domain cfg)
                          (recordType cfg) w ltac:(lia)) as Hret; rewrite H in Hret
        end.
        simpl in Hret. destruct (dial_fails _); simplify_eq.
        repeat split; try done; lia.
    + (* the report panicked *)
      right. unfold Report.statistics, div64 in *.
      match goal with H : context [?q =? 0] |- _ => destruct (q =? 0) eqn:E end;
        simplify_eq/=. bools. subst. split; [done | eauto].
Qed.

(** X16.  With a negative [concurrency] the program panics when it makes
    the [results] channel: no goroutine is started and nothing else
    happens. *)
Theorem X16_negative_concurrency_panics tr s :
  N < 0 → exec tr s →
  tr = [] ∧ panicked s = Some MakeChanSize ∧ workers s = [] ∧
  producer s = PNotStarted ∧ ∀ l, step l s = None.
Proof.
  intros HN Hexec. pose proof (makechan_negative N HN) as Hp.
  destruct (refused_halts tr s _ Hp Hexec) as [-> ->].
  repeat split; try done.
  intros l. unfold Pool.step, running. simpl. by rewrite Hp.
Qed.




Lemma caused_init : caused cfg [] init.
Proof. constructor; simpl; try done. by intros [? | ?]. Qed.

Lemma caused_step tr l s s' :
  structural s → caused cfg tr s → step l s = Some s' → caused cfg (l :: tr) s'.
Proof.
  intros Hst [Hsig Hcan Hw Hcl] Hstep. pose proof (st_jobs _ _ Hst) as Hjobs.
  step_inv Hstep.
  all: constructor; simpl; rewrite ?tally_app; tally_step; simpl.
  all: intros; rewrite ?elem_of_cons; bools; pcs.
  all: try (intuition (try congruence); lia).
  all: destruct Hw as [? | ?]; [lia | by left | right; congruence].
Qed.

Lemma exec_caused tr s : exec tr s → caused cfg tr s.
Proof. induction 1; eauto using caused_init, caused_step, exec_structural. Qed.



(** A report that is printed counts at least one query. *)
Lemma returned_nonzero tr s :
  exec tr s → ∀ st, coordinator s = MReturned st → Report.totalQueries st ≠ 0.
Proof.
  induction 1 as [| tr s l s' Hexec IH Hstep]; [done |]. intros st.
  clear Hexec. step_inv Hstep; try (by apply IH).
  - intros [= <-]. unfold Report.statistics, div64 in *.
    match goal with H : context [?q =? 0] |- _ => destruct (q =? 0) eqn:E end;
      simplify_eq/=. by bools.
  - match goal with H : coordinator _ = _ |- _ => by rewrite H end.
Qed.

(** X17.  With a limit of zero, or a negative limit other than -1, the
    producer closes [jobs] at once: no job is ever handed over,
    [queryCount] stays 0, the [finalQueryCount] that [main] reads is 0,
    and [main] never returns from the statistics. *)
Theorem X17_nothing_to_do_never_reports tr s :
  L ≠ -1 → L ≤ 0 → exec tr s →
  produced tr = 0 ∧ queryCount s = 0 ∧
  producer s ≠ PSend ∧ producer s ≠ PCount ∧
  (∀ fq, finalQueryCount (coordinator s) = Some fq → fq = 0) ∧
  (∀ st, coordinator s ≠ MReturned st).
Proof.
  intros HL1 HL2 Hexec.
  assert (L ≤ maxInt64) as HL3 by (unfold maxInt64; lia).
  destruct (queryCount_limited tr s HL1 HL3 Hexec) as [Hq Hc].
  pose proof (li_lt _ _ _ (exec_limited tr s HL1 HL3 Hexec)) as Hlt.
  pose proof (ac_counted _ _ (exec_accounted _ _ Hexec)) as Hcnt.
  assert (sending (producer s) = false) as Hsend.
  { destruct (sending (producer s)); [| done]. specialize (Hlt eq_refl). lia. }
  assert (produced tr = 0) as Hp.
  { rewrite Hcnt. destruct (producer s); simpl in *; try done; lia. }
  assert (∀ fq, finalQueryCount (coordinator s) = Some fq → fq = 0) as Hfq.
  { intros fq Hfq. destruct (proj1 (reported_counts tr s Hexec) fq Hfq) as (c & -> & ? & ?).
    by replace c with 0 by lia. }
  split; [done |]. split; [lia |].
  split; [by destruct (producer s) |]. split; [by destruct (producer s) |].
  split; [done |]. intros st Hm.
  apply (returned_nonzero tr s Hexec st Hm). apply Hfq. by rewrite Hm.
Qed.


(** *** After [cancel()] *)

Lemma workers_weight_le (ws : list WorkerPC) :
  workers_weight ws ≤ 4 * Z.of_nat (length ws).
Proof. induction ws as [|[] ws IH]; cbn [workers_weight worker_weight length]; lia. Qed.

Lemma drain_weight_init s :
  structural s → past_select (coordinator s) = true →
  0 ≤ drain_weight s ≤ 5 * Z.max 0 N + 17.
Proof.
  intros Hst Hm. unfold drain_weight.
  pose proof (workers_weight_nonneg (workers s)).
  pose proof (workers_weight_le (workers s)).
  pose proof (st_workers _ _ Hst) as Hlen. pose proof (st_cap _ _ Hst).
  destruct (coordinator s); try done; simpl in Hlen.
  all: destruct (producer s), (closer s), (aggregator s), (panicked s); simpl; lia.
Qed.

(** Once the context is cancelled, every action of the program uses up
    [drain_weight]. *)
Lemma drain_step l s s' :
  cancelled s = true → past_select (coordinator s) = true →
  is_program l = true → step l s = Some s' →
  drain_weight s' + 1 ≤ drain_weight s ∧
  cancelled s' = true ∧ past_select (coordinator s') = true.
Proof.
  intros Hcan Hm Hl Hstep. unfold drain_weight.
  assert (panicked s = None) as Hp.
  { unfold Pool.step in Hstep. destruct (running s) eqn:Hrun; [| done].
    unfold running in Hrun. by destruct (panicked s). }
  step_inv Hstep.
  all: rewrite ?length_app, ?workers_weight_app; weight_step; rewrite ?Hp; simpl.
  all: pcs_in_hyps; try done; pcs.
  all: repeat split; try done; lia.
Qed.

Lemma drain_interrupt l s s' :
  is_program l = false → step l s = Some s' →
  drain_weight s' = drain_weight s ∧ cancelled s' = cancelled s ∧
  coordinator s' = coordinator s.
Proof.
  intros Hl Hstep. destruct l; try done. unfold Pool.step in Hstep.
  destruct (negb (running s)); [done |].
  destruct (listening (coordinator s)); by simplify_eq.
Qed.

Lemma drain_run ls s s' :
  cancelled s = true → past_select (coordinator s) = true →
  run codec cfg ls s = Some s' →
  tally is_program ls + drain_weight s' ≤ drain_weight s ∧
  cancelled s' = true ∧ past_select (coordinator s') = true.
Proof.
  revert s. induction ls as [|l ls IH]; intros s Hcan Hm Hrun; simpl in Hrun.
  - simplify_eq. simpl. repeat split; try done; lia.
  - destruct (step l s) as [s1 |] eqn:Hstep; [| done]. cbn [tally].
    destruct (is_program l) eqn:Hl.
    + destruct (drain_step l s s1 Hcan Hm Hl Hstep) as (Hdec & Hcan1 & Hm1).
      destruct (IH s1 Hcan1 Hm1 Hrun) as (? & ? & ?). repeat split; try done; lia.
    + destruct (drain_interrupt l s s1 Hl Hstep) as (Hdec & Hcan1 & Hm1).
      destruct (IH s1) as (? & ? & ?); try congruence. repeat split; try done; lia.
Qed.

Lemma drain_reports n :
  (String.length (domain cfg) < nameLen)%nat ∨ N = 0 →
  ∀ tr s, exec tr s → cancelled s = true → drain_weight s ≤ Z.of_nat n →
    ∃ tr' s', exec (tr' ++ tr) s' ∧ is_Some (finalQueryCount (coordinator s')).
Proof.
  intros Hfit. induction n as [|n IH]; intros tr s Hexec Hcan Hle.
  all: destruct (finalQueryCount (coordinator s)) as [fq |] eqn:Hfq;
         [by exists [], s; eauto |].
  all: pose proof (exec_structural _ _ Hexec) as Hst.
  all: destruct (ca_cancel _ _ _ (exec_caused _ _ Hexec) Hcan) as (Hint & _ & Hm).
  all: assert (running s = true) as Hrun
         by (unfold running; destruct (panicked s) as [f |] eqn:Hp;
             [ destruct (panic_causes tr s f Hexec Hp)
                 as [(_ & ->) | [(_ & ? & ?) | (_ & fs & el & Hm')]];
               [ by apply elem_of_nil in Hint
               | destruct Hfit; lia
               | by rewrite Hm' in Hfq ]
             | by destruct (coordinator s) ]).
  all: destruct (progress tr s Hexec Hrun) as (l & s' & Hl & Hstep).
  all: destruct (drain_step l s s' Hcan Hm Hl Hstep) as (Hdec & Hcan' & _).
  all: pose proof (exec_step _ _ _ _ _ _ _ Hexec Hstep) as Hexec'.
  - destruct (ca_cancel _ _ _ (exec_caused _ _ Hexec') Hcan') as (_ & _ & Hm').
    pose proof (drain_weight_init s' (exec_structural _ _ Hexec') Hm'). lia.
  - destruct (IH (l :: tr) s' Hexec' Hcan') as (tr' & s2 & H1 & H2); [lia |].
    exists (tr' ++ [l]), s2. rewrite <- app_assoc. simpl. eauto.
Qed.

(** X18.  Ctrl-C ends every run.  Once [main] has called [cancel()], the
    program performs at most [5 concurrency + 17] more actions, whatever
    the limit, and, unless the domain is too long for a DNS name, the run
    can be continued to the point where [main] reads the final counters. *)
Theorem X18_shutdown_after_interrupt tr s :
  exec tr s → cancelled s = true →
  (∀ ls s', run codec cfg ls s = Some s' →
            tally is_program ls ≤ 5 * Z.max 0 N + 17 ∧ cancelled s' = true) ∧
  ((String.length (domain cfg) < nameLen)%nat ∨ N = 0 →
   ∃ tr' s', exec (tr' ++ tr) s' ∧ is_Some (finalQueryCount (coordinator s'))).
Proof.
  intros Hexec Hcan. pose proof (exec_structural _ _ Hexec) as Hst.
  destruct (ca_cancel _ _ _ (exec_caused _ _ Hexec) Hcan) as (_ & _ & Hm).
  pose proof (drain_weight_init s Hst Hm) as Hinit. split.
  - intros ls s' Hrun.
    destruct (drain_run ls s s' Hcan Hm Hrun) as (Hsteps & Hcan' & Hm').
    pose proof (exec_structural _ _ (run_exec_from _ _ _ _ Hexec Hrun)) as Hst'.
    pose proof (drain_weight_init s' Hst' Hm'). split; [lia | done].
  - intros Hfit. apply (drain_reports (Z.to_nat (drain_weight s)) Hfit tr s); try done. lia.
Qed.

(** *** What the report says *)












End PoolFacts.

(** ** Concrete runs *)

Lemma outcome_exec cfg ls :
  is_Some (Pool.run test_codec cfg ls (Pool.init test_rt cfg)) →
  Pool.exec test_rt test_codec cfg (rev ls) (outcome cfg ls).
Proof.
  intros [s Hs]. unfold outcome. rewrite Hs. simpl. by apply run_exec.
Qed.

Lemma stranded_step codec cfg l s s' :
  Pool.stranded s → Pool.step codec cfg l s = Some s' → Pool.stranded s'.
Proof.
  intros (Hp & Hw & Hj & Hm) Hstep. unfold Pool.stranded.
  unfold Pool.step, Pool.worker_return in Hstep.
  repeat (case_match; simplify_eq/=; try done).
  all: try match goal with
       | H : Pool.workers _ !! _ = Some _ |- _ =>
           pose proof (tally_lookup Pool.active _ _ _ H eq_refl); lia
       end.
  all: match goal with
       | H : Pool.coordinator _ = _ |- _ =>
           first [by rewrite H in Hm | by rewrite H]
       end.
Qed.

Lemma stranded_run codec cfg ls s s' :
  Pool.stranded s → Pool.run codec cfg ls s = Some s' → Pool.stranded s'.
Proof.
  revert s. induction ls as [|l ls IH]; intros s Hs Hrun; simpl in Hrun.
  - by simplify_eq.
  - destruct (Pool.step codec cfg l s) as [s1 |] eqn:Hstep; [| done].
    eauto using stranded_step.
Qed.

(** C1 fails for [-queries 0]: the run reaches the statistics
    with [finalQueryCount = 0] and dies there with a division by zero. *)
Theorem C1_report_over_no_queries_panics :
  let s := outcome (example_cfg 0 1) no_jobs in
  Pool.coordinator s = Pool.MStats 0 0 1000000 ∧
  Pool.panicked s = Some (Pool.Uncaught "runtime error: integer divide by zero").
Proof. vm_compute. done. Qed.

(** C3 fails on the run [cancel_during_send]: after [cancel()] the producer is still in
    [jobs <- 1], every worker is gone, and the producer stays there in every
    continuation; one continuation is the rest of the program, which prints
    its report and exits with the producer still blocked. *)
Theorem C3_producer_blocked_in_send_after_cancel :
  let cfg := example_cfg (-1) 1 in
  let s := outcome cfg cancel_during_send in
  Pool.cancelled s = true ∧ Pool.producer s = Pool.PSend ∧
  (∀ ls s', Pool.run test_codec cfg ls s = Some s' → Pool.producer s' = Pool.PSend) ∧
  (∃ s' st, Pool.run test_codec cfg shutdown s = Some s' ∧
            Pool.coordinator s' = Pool.MReturned st ∧ Pool.producer s' = Pool.PSend).
Proof.
  intros cfg s. split; [by vm_compute |]. split; [by vm_compute |]. split.
  - intros ls s' Hrun.
    assert (Pool.stranded s) as Hs by (by vm_compute).
    by destruct (stranded_run _ _ _ _ _ Hs Hrun).
  - eexists _, _. split; [vm_compute; reflexivity |]. done.
Qed.

(** C6 fails on the run [cancel_before_count]: the report counts one query and two successes,
    and prints -1 failed queries. *)
Theorem C6_more_successes_than_queries :
  let s := outcome (example_cfg (-1) 1) cancel_before_count in
  ∃ st, Pool.coordinator s = Pool.MReturned st ∧
        Report.totalQueries st = 1 ∧ Report.successful st = 2 ∧
        Report.failedQueries st = -1.
Proof. eexists. split; [vm_compute; reflexivity |]. done. Qed.



Lemma C5_results_closed_after_workers_return_witness :
  let cfg := example_cfg 2 2 in
  let s := outcome cfg two_jobs in
  Pool.resultsClosed s = true ∧ Z.of_nat (length (Pool.workers s)) = 2 ∧
  (∀ i w, Pool.workers s !! i = Some w → w = Pool.WReturned) ∧
  Pool.panicked s ≠ Some Pool.SendOnClosedChannel.
Proof.
  intros cfg s.
  destruct (C5_results_closed_after_workers_return test_rt test_codec cfg (rev two_jobs) s)
    as (_ & Hclosed & _ & Hchan); [apply outcome_exec; vm_compute; eauto |].
  assert (Pool.resultsClosed s = true) as Hrc by (vm_compute; reflexivity).
  destruct (Hclosed Hrc) as (_ & Hlen & Hall). repeat split; done.
Defined.

Lemma C10_pool_without_workers_witness :
  let cfg := example_cfg 5 0 in
  let s := outcome cfg no_workers in
  Pool.exec test_rt test_codec cfg (rev no_workers) s ∧
  Pool.produced (rev no_workers) = 0 ∧ Pool.queryCount s = 0 ∧
  Pool.resultsClosed s = true ∧ Pool.doneClosed s = true ∧
  Pool.finalQueryCount (Pool.coordinator s) = Some 0.
Proof.
  intros cfg s.
  assert (Pool.exec test_rt test_codec cfg (rev no_workers) s) as Hexec
    by (apply outcome_exec; vm_compute; eauto).
  destruct (C10_pool_without_workers test_rt test_codec cfg (rev no_workers) s)
    as ((Hp & _ & _ & Hq & _) & Hclosed & Hfq & _); [reflexivity | done |].
  destruct Hclosed as [Hrc Hd]; [vm_compute; reflexivity |].
  repeat split; done.
Defined.

(** * Further properties

    What else the code does, function by function. *)

(** ** [performDNSQuery], lines 25-75 *)

Section ExecutorCoverage.
Import Dnsmessage Executor.

Variable codec : Codec.
Variable w : Attempt.
Variables (dnsServer domain : string) (recordType : Z).

(** The function, path by path. *)
Lemma performDNSQuery_paths :
  performDNSQuery codec w dnsServer domain recordType =
  let dial := EvDial "udp" dnsServer in
  if dial_fails w then
    ([dial; EvLog "Error connecting to DNS server"], Returned (failed w))
  else
    match question domain recordType with
    | Panic msg => ([dial; EvClose], Panic msg)
    | Returned q =>
        match Pack codec {| ID := uint16 (Intn w 65535); RecursionDesired := true;
                            Questions := [q] |} with
        | None => ([dial; EvLog "Error packing DNS message"; EvClose], Returned (failed w))
        | Some p =>
            if write_fails w then
              ([dial; EvWrite p; EvLog "Error sending DNS query"; EvClose],
               Returned (failed w))
            else
              match datagram w with
              | None =>
                  ([dial; EvWrite p; EvSetReadDeadline 5; EvRead 512;
                    EvLog "Error reading DNS response"; EvClose], Returned (failed w))
              | Some d =>
                  if Unpack codec (read_buffer d) then
                    ([dial; EvWrite p; EvSetReadDeadline 5; EvRead 512; EvClose],
                     Returned {| Duration := since_start w; Success := true |})
                  else
                    ([dial; EvWrite p; EvSetReadDeadline 5; EvRead 512;
                      EvLog "Error unpacking DNS response"; EvClose],
                     Returned (failed w))
              end
        end
    end.
Proof.
  unfold performDNSQuery, mbind, body_bind, then_, defer, finish, emit, pure, leave, lift.
  destruct (dial_fails w); simpl; [done |].
  destruct (question domain recordType) as [q | msg]; simpl; [| done].
  destruct (Pack codec _) as [p |]; simpl; [| done].
  destruct (write_fails w); simpl; [done |].
  destruct (datagram w) as [d |]; simpl; [| done].
  by destruct (Unpack codec (read_buffer d)).
Qed.

(** Go through an event list looking for a given event. *)
Ltac pick_event Hin :=
  repeat (apply elem_of_cons in Hin as [Hin | Hin];
          [first [discriminate Hin | injection Hin as -> | injection Hin as <-] |]);
  try (by apply elem_of_nil in Hin).

Ltac paths :=
  rewrite performDNSQuery_paths; cbv zeta;
  destruct (dial_fails w) eqn:Hdial;
    [| destruct (question domain recordType) as [q | msg] eqn:Hq;
       [destruct (Pack codec _) as [p |] eqn:Hpack;
        [destruct (write_fails w) eqn:Hwrite;
         [| destruct (datagram w) as [d |] eqn:Hdata;
            [destruct (Unpack codec (read_buffer d)) eqn:Hunpack |]] |] |]].

(** X1.  When the domain fits a DNS name (fewer than 255 bytes), the call
    returns a [QueryResult] whatever the network does; its [Duration] is the
    time since the start of the call, and [Success] is true exactly when
    all five steps went through: the dial, the packing of the query, the
    write, the read of a datagram and the unpacking of the read buffer. *)
Theorem X1_success_means_all_steps_passed :
  (String.length domain < nameLen)%nat →
  ∃ r, (performDNSQuery codec w dnsServer domain recordType).2 = Returned r ∧
       Duration r = since_start w ∧
       (Success r = true ↔
          dial_fails w = false ∧
          is_Some (Pack codec (query_message w domain recordType)) ∧
          write_fails w = false ∧
          ∃ d, datagram w = Some d ∧ Unpack codec (read_buffer d) = true).
Proof.
  intros Hlen. unfold query_message. rewrite performDNSQuery_paths. cbv zeta.
  rewrite (question_fits domain recordType Hlen).
  destruct (dial_fails w);
    [| destruct (Pack codec _) as [p |];
       [destruct (write_fails w);
        [| destruct (datagram w) as [d |];
           [destruct (Unpack codec (read_buffer d)) eqn:Hunpack |]] |]].
  all: eexists; split; [done |]; split; [done |]; simpl.
  all: split; [try done | intros (? & [? ?] & ? & d' & ? & ?); simplify_eq; congruence].
  intros _. repeat split; eauto.
Qed.

(** X2.  Every call starts by dialling the server over UDP.  The
    connection is closed exactly once, as the last thing the call does,
    when the dial succeeded, also when the call fails or panics later, and
    it is never closed when the dial failed. *)
Theorem X2_connection_closed_exactly_once :
  let events := (performDNSQuery codec w dnsServer domain recordType).1 in
  head events = Some (EvDial "udp" dnsServer) ∧
  Pool.tally is_close events = (if dial_fails w then 0 else 1) ∧
  (last events = Some EvClose ↔ dial_fails w = false).
Proof. paths; simpl; repeat split; done. Qed.

(** X3.  A call that returns [Success = false] has written exactly one
    line to the log, a call that returns [Success = true] none, and a call
    that panics none. *)
Theorem X3_one_log_line_per_failure :
  let '(events, out) := performDNSQuery codec w dnsServer domain recordType in
  Pool.tally is_log events =
    match out with
    | Returned r => if Success r then 0 else 1
    | Panic _ => 0
    end.
Proof. paths; done. Qed.

(** X4.  The order of the I/O: a response is read only after the query has
    been written successfully and a read deadline of five seconds has been
    set, the read is into 512 bytes, and a call writes at most one packet;
    when the dial fails the call does nothing but log the error. *)
Theorem X4_read_follows_write_and_deadline :
  let events := (performDNSQuery codec w dnsServer domain recordType).1 in
  (∀ n, EvRead n ∈ events →
        write_fails w = false ∧
        ∃ packet, take 4 events = [EvDial "udp" dnsServer; EvWrite packet;
                                   EvSetReadDeadline 5; EvRead n] ∧ n = 512%nat) ∧
  Pool.tally is_write events ≤ 1 ∧
  (dial_fails w = true →
   events = [EvDial "udp" dnsServer; EvLog "Error connecting to DNS server"]).
Proof.
  paths; simpl; (split; [| split; [lia | done]]).
  all: intros n Hin; pick_event Hin.
  all: split; [done |]; by eexists.
Qed.

(** X5.  Every packet the call writes is the packing of a message with
    recursion desired, an ID between 0 and 65534, and a single question of
    the configured record type and class INET (1). *)
Theorem X5_query_header :
  ∀ packet,
    EvWrite packet ∈ (performDNSQuery codec w dnsServer domain recordType).1 →
    ∃ m q, Pack codec m = Some packet ∧
           RecursionDesired m = true ∧ 0 ≤ ID m < 65535 ∧
           Questions m = [q] ∧ Type_ q = recordType ∧ Class q = 1.
Proof.
  intros packet. paths; simpl; intros Hin; pick_event Hin.
  all: eexists _, q; split; [exact Hpack |]; simpl.
  all: unfold question in Hq; destruct (MustNewName _); simplify_eq/=.
  all: repeat split; try done.
  all: unfold uint16, Intn.
  all: pose proof (Z.mod_pos_bound (rand_int63 w) 65535 ltac:(lia)).
  all: rewrite Z.mod_small; lia.
Qed.

(** X8.  The call panics exactly when the dial succeeds and the domain
    has 255 bytes or more: the panic is that of [MustNewName], and by then
    the call has dialled and, through the deferred [Close], closed the
    connection, and nothing else.  A dial that fails hides the panic: the
    call returns before the name is built. *)
Theorem X8_panic_exactly_for_long_domains :
  ((∃ msg, (performDNSQuery codec w dnsServer domain recordType).2 = Panic msg) ↔
   (nameLen ≤ String.length domain)%nat ∧ dial_fails w = false) ∧
  (∀ msg, (performDNSQuery codec w dnsServer domain recordType).2 = Panic msg →
          msg = "creating name: " +:+ errCalcLen ∧
          (performDNSQuery codec w dnsServer domain recordType).1 =
            [EvDial "udp" dnsServer; EvClose]).
Proof.
  destruct (decide (String.length domain < nameLen)%nat) as [Hfit | Hlong].
  - pose proof (performDNSQuery_returns codec dnsServer domain recordType w Hfit) as Hr.
    rewrite Hr. split; [| done]. split; [by intros [? ?] | lia].
  - assert (nameLen ≤ String.length domain)%nat as Hlen by lia.
    rewrite performDNSQuery_paths. cbv zeta.
    rewrite (question_too_long domain recordType Hlen).
    destruct (dial_fails w); simpl.
    + split; [| done]. split; [by intros [? ?] | by intros [_ ?]].
    + split; [split; [done | by eexists] |]. by intros msg [= <-].
Qed.

(** X22.  What the call unpacks is the whole buffer of 512 bytes, not the
    bytes it has received.  When the dial, the packing and the write have
    succeeded and a datagram has arrived, [Success] is the verdict of
    [Unpack] on a buffer of exactly 512 bytes, whatever the length of the
    datagram: byte [i] of the buffer is byte [i] of the datagram where the
    datagram has one, and zero elsewhere, and what the datagram holds
    beyond 512 bytes is not seen. *)
Theorem X22_unpack_sees_whole_buffer (d : list Byte.byte) :
  (String.length domain < nameLen)%nat → dial_fails w = false →
  is_Some (Pack codec (query_message w domain recordType)) →
  write_fails w = false → datagram w = Some d →
  ∃ b r, length b = 512%nat ∧
         (∀ i, (i < 512)%nat → b !! i = Some (default Byte.x00 (d !! i))) ∧
         (performDNSQuery codec w dnsServer domain recordType).2 = Returned r ∧
         Success r = Unpack codec b.
Proof.
  intros Hlen Hdial [p Hp] Hwrite Hd. exists (read_buffer d).
  rewrite (performDNSQuery_returns codec dnsServer domain recordType w Hlen).
  unfold round_trip. rewrite Hdial, Hp, Hwrite, Hd. eexists. split; [| split; [| done]].
  - unfold read_buffer. rewrite length_app, length_take, length_replicate. lia.
  - intros i Hi. unfold read_buffer.
    destruct (decide (i < length d)%nat) as [Hin | Hout].
    + rewrite lookup_app_l by (rewrite length_take; lia).
      rewrite lookup_take_lt by lia.
      destruct (lookup_lt_is_Some_2 d i Hin) as [x Hx]. by rewrite Hx.
    + rewrite take_ge by lia. rewrite lookup_app_r by lia.
      rewrite (lookup_ge_None_2 d i) by lia. simpl.
      apply lookup_replicate. split; [done | lia].
Qed.

End ExecutorCoverage.

Lemma X1_success_means_all_steps_passed_witness :
  ∃ r, (Executor.performDNSQuery test_codec (answered 20000000) "8.8.8.8:53"
          "example.com" 1).2 = Returned r ∧
       Executor.Duration r = 20000000 ∧ Executor.Success r = true.
Proof.
  destruct (X1_success_means_all_steps_passed test_codec (answered 20000000)
              "8.8.8.8:53" "example.com" 1) as (r & Hr & Hd & Hs);
    [vm_compute; lia |].
  exists r. split; [done |]. split; [done |]. apply Hs.
  split; [done |]. split; [by eexists |]. split; [done |]. by eexists.
Defined.

Lemma X22_unpack_sees_whole_buffer_witness :
  ∃ b r, length b = 512%nat ∧
         (∀ i, (i < 512)%nat →
               b !! i = Some (default Byte.x00 ([Byte.x10; Byte.x92] !! i))) ∧
         (Executor.performDNSQuery test_codec (answered 20000000) "8.8.8.8:53"
            "example.com" 1).2 = Returned r ∧
         Executor.Success r = Dnsmessage.Unpack test_codec b.
Proof.
  apply (X22_unpack_sees_whole_buffer test_codec (answered 20000000) "8.8.8.8:53"
           "example.com" 1 [Byte.x10; Byte.x92]).
  - vm_compute. lia.
  - reflexivity.
  - by eexists.
  - reflexivity.
  - reflexivity.
Defined.

Lemma X4_read_follows_write_and_deadline_witness :
  Executor.write_fails timed_out = false.
Proof.
  apply (proj1 (X4_read_follows_write_and_deadline test_codec timed_out "8.8.8.8:53"
                  "example.com" 1)) with (n := 512%nat).
  vm_compute. do 3 apply list_elem_of_further. apply list_elem_of_here.
Defined.

Lemma X5_query_header_witness :
  ∃ m q, Dnsmessage.Pack test_codec m =
           Some (String.list_byte_of_string "example.com.") ∧
         Dnsmessage.RecursionDesired m = true ∧ 0 ≤ Dnsmessage.ID m < 65535 ∧
         Dnsmessage.Questions m = [q] ∧ Dnsmessage.Type_ q = 28 ∧
         Dnsmessage.Class q = 1.
Proof.
  apply (X5_query_header test_codec timed_out "[2001:db8::1]:53" "example.com" 28).
  vm_compute. apply list_elem_of_further, list_elem_of_here.
Defined.

(** ** The start of [main], lines 94-135 *)

Section StartupCoverage.
Import Startup.

Lemma Contains_append_port (a : string) : Contains (a +:+ ":53") ":" = true.
Proof.
  induction a as [|c a IH]; [done |].
  change (String c a +:+ ":53") with (String c (a +:+ ":53")).
  by rewrite Contains_cons, IH, orb_true_r.
Qed.

Lemma prefix_append (a b : string) : String.prefix a (a +:+ b) = true.
Proof.
  induction a as [|c a IH]; [by destruct b |]. simpl. by destruct (Ascii.ascii_dec c c).
Qed.

Lemma prefix_refl (a : string) : String.prefix a a = true.
Proof.
  induction a as [|c a IH]; [done |]. simpl. by destruct (Ascii.ascii_dec c c).
Qed.

(** X6.  The pool is started exactly when a domain is given, the log file
    (if one is asked for) can be opened and the record type is in the
    table; it is then started with the flags as they are, but for the
    server address: the number of queries and the concurrency are not
    checked.  In every other case the program exits with status 1. *)
Theorem X6_startup_accepts_exactly (fl : Flags) (open_ok : bool) :
  (∀ cfg, startup fl open_ok = Run cfg ↔
     flag_domain fl ≠ "" ∧ (flag_log fl = "" ∨ open_ok = true) ∧
     ∃ rt, recordTypeMap !! flag_type fl = Some rt ∧
           cfg = {| domain := flag_domain fl; recordType := rt;
                    queries := flag_queries fl;
                    concurrency := flag_concurrency fl;
                    dnsServer := normalizeServer (flag_dns fl) |}) ∧
  (∀ code, startup fl open_ok = Exit code → code = 1).
Proof.
  unfold startup.
  destruct (String.eqb (flag_domain fl) "") eqn:Hd;
    [apply String.eqb_eq in Hd | apply String.eqb_neq in Hd].
  { split; [| by intros ? [= <-]]. intros cfg. split; [done | by intros [? _]]. }
  assert (negb (String.eqb (flag_log fl) "") && negb open_ok = false ↔
          flag_log fl = "" ∨ open_ok = true) as Hlog.
  { rewrite andb_false_iff, !negb_false_iff, String.eqb_eq. done. }
  destruct (negb (String.eqb (flag_log fl) "") && negb open_ok).
  { split; [| by intros ? [= <-]]. intros cfg. split; [done |].
    intros (_ & Hl & _). by apply Hlog in Hl. }
  pose proof (proj1 Hlog eq_refl) as Hl.
  destruct (recordTypeMap !! flag_type fl) as [rt |] eqn:Hrt.
  - split; [| done]. intros cfg. split.
    + intros [= <-]. eauto.
    + intros (_ & _ & rt' & [= <-] & ->). done.
  - split; [| by intros ? [= <-]]. intros cfg. split; [done |].
    by intros (_ & _ & rt' & ? & _).
Qed.

(** X7.  The address the pool is started with always contains a colon
    and begins with the [dns] flag, and giving the default port to an
    address that has been through lines 107-109 changes nothing. *)
Theorem X7_server_address_is_stable (dns : string) :
  Contains (normalizeServer dns) ":" = true ∧
  String.prefix dns (normalizeServer dns) = true ∧
  normalizeServer (normalizeServer dns) = normalizeServer dns.
Proof.
  unfold normalizeServer. destruct (Contains dns ":") eqn:Hc; simpl.
  - rewrite Hc. simpl. repeat split; try done. apply prefix_refl.
  - rewrite Contains_append_port. simpl.
    split; [done | split; [apply prefix_append | done]].
Qed.

End StartupCoverage.

(** ** The statistics, lines 216-226 *)

(** X9.  For counters as a run can leave them (a positive number of
    queries, a total duration and a success count that are not negative),
    the statistics are computed without a panic: the totals are the
    counters, successful and failed queries add up to the total, and the
    average is the total duration divided by the number of queries, rounded
    down. *)
Theorem X9_statistics_of_counted_queries (totalDuration fq fs elapsed : Z) :
  0 ≤ totalDuration ≤ maxInt64 → 0 < fq ≤ maxInt64 → 0 ≤ fs ≤ maxInt64 →
  ∃ st, Report.statistics totalDuration fq fs elapsed = Returned st ∧
        Report.totalQueries st = fq ∧ Report.successful st = fs ∧
        Report.successful st + Report.failedQueries st = Report.totalQueries st ∧
        Report.avgDuration st * fq ≤ totalDuration < (Report.avgDuration st + 1) * fq.
Proof.
  intros Hd Hq Hs. unfold Report.statistics, div64.
  destruct (fq =? 0) eqn:E; [lia |]. eexists. split; [reflexivity |]. simpl.
  assert (0 ≤ totalDuration `div` fq ≤ totalDuration) as Hdiv.
  { split; [apply Z.div_pos; lia | apply Z.div_le_upper_bound; nia]. }
  rewrite Z.quot_div_nonneg by lia.
  unfold sub64. rewrite !wrap64_small by (unfold in_int64, minInt64, maxInt64 in *; lia).
  repeat split; try lia.
  - rewrite Z.mul_comm. apply Z.mul_div_le. lia.
  - rewrite Z.mul_comm. apply Z.mul_succ_div_gt. lia.
Qed.

Lemma X9_statistics_of_counted_queries_witness :
  ∃ st, Report.statistics 50000000 3 2 1000000000 = Returned st ∧
        Report.failedQueries st = 1 ∧ Report.avgDuration st = 16666666.
Proof.
  destruct (X9_statistics_of_counted_queries 50000000 3 2 1000000000)
    as (st & Hst & Hq & Hs & Hf & Ha); [unfold maxInt64; lia .. |].
  exists st. split; [done |]. split; lia.
Defined.

(** ** Runs of the pool *)

Section PoolWitnesses.
Import Startup Pool.




Lemma X13_reported_counts_witness :
  let cfg := example_cfg (-1) 1 in
  ∃ c, 1 = wrap64 c ∧ 0 ≤ c ∧
       produced (rev cancel_before_count) - 1 ≤ c ≤ produced (rev cancel_before_count).
Proof.
  intros cfg.
  apply (proj1 (X13_reported_counts test_rt test_codec cfg (rev cancel_before_count) _
                  (outcome_exec cfg cancel_before_count ltac:(vm_compute; eauto)))).
  vm_compute. reflexivity.
Defined.



Lemma X16_negative_concurrency_panics_witness :
  let cfg := example_cfg 5 (-3) in
  panicked (init test_rt cfg) = Some MakeChanSize ∧ ∀ l, step test_codec cfg l (init test_rt cfg) = None.
Proof.
  intros cfg.
  destruct (X16_negative_concurrency_panics test_rt test_codec cfg [] (init test_rt cfg))
    as (_ & Hp & _ & _ & Hhalt); [simpl; lia | constructor |].
  split; [exact Hp | exact Hhalt].
Defined.


Lemma X17_nothing_to_do_never_reports_witness :
  let cfg := example_cfg 0 1 in
  let s := outcome cfg no_jobs in
  produced (rev no_jobs) = 0 ∧ ∀ st, coordinator s ≠ MReturned st.
Proof.
  intros cfg s.
  destruct (X17_nothing_to_do_never_reports test_rt test_codec cfg (rev no_jobs) s)
    as (Hp & _ & _ & _ & _ & Hm);
    [simpl; lia | simpl; lia | apply outcome_exec; vm_compute; eauto |].
  split; [exact Hp | exact Hm].
Defined.

Lemma X18_shutdown_after_interrupt_witness :
  let cfg := example_cfg (-1) 1 in
  let s := outcome cfg cancel_during_send in
  (∀ ls s', run test_codec cfg ls s = Some s' →
            tally is_program ls ≤ 5 * 1 + 17 ∧ cancelled s' = true) ∧
  ∃ tr' s', exec test_rt test_codec cfg (tr' ++ rev cancel_during_send) s' ∧
            is_Some (finalQueryCount (coordinator s')).
Proof.
  intros cfg s.
  destruct (X18_shutdown_after_interrupt test_rt test_codec cfg (rev cancel_during_send) s)
    as (Hbound & Hlive); [apply outcome_exec; vm_compute; eauto | vm_compute; reflexivity |].
  split; [exact Hbound |]. apply Hlive. left. vm_compute. lia.
Defined.




End PoolWitnesses.
